(** * market_price_fetcher: price table, persistence adapter and NAV step

    A shallow embedding of [src/main.py] ([CryptoPriceTracker]) and
    [src/db_utils.py].  The tracker object, the relational store and the
    logger are one explicit [State]; the exchange, the wall clock and the
    store's failures are an [Env] of oracles indexed by call number; code
    that can raise runs in a state-and-exception monad [M]. *)

From Stdlib Require Import List String ZArith QArith Bool Arith Lia.
From Stdlib Require Import Permutation Sorted.
Import ListNotations.

Close Scope Q_scope.
Local Open Scope string_scope.
Local Open Scope list_scope.

(** ** Values *)

(** A naive [datetime.datetime]: its calendar and clock fields. *)
Record datetime := mkDatetime {
  year : Z; month : Z; day : Z;
  hour : Z; minute : Z; second : Z; microsecond : Z
}.

(** [dt.replace(second=s, microsecond=us)]. *)
Definition replace (dt : datetime) (s us : Z) : datetime :=
  mkDatetime (year dt) (month dt) (day dt) (hour dt) (minute dt) s us.

(** A pandas [Timestamp] of the shares table after [pd.to_datetime]:
    nanoseconds since the epoch, or [None] for [NaT]. *)
Definition Timestamp := option Z.

(** Order used by [sort_values(ascending=False)] with the default
    [na_position='last']: [NaT] sits below every timestamp. *)
Definition ts_leb (a b : Timestamp) : bool :=
  match a, b with
  | None, _ => true
  | Some _, None => false
  | Some x, Some y => (x <=? y)%Z
  end.

Definition ts_ltb (a b : Timestamp) : bool := negb (ts_leb b a).

(** Python exceptions that the modelled code can meet. *)
Inductive exn :=
| KeyError (key : string)
| ZeroDivisionError
| ApiError (msg : string)
| DatabaseError (msg : string).

Inductive result (A : Type) :=
| Ok (a : A)
| Raise (e : exn).
Arguments Ok {A} a.
Arguments Raise {A} e.

(** ** Rows *)

(** A row of [self.df]: columns [timestamp], [pm], [balance]. *)
Record PriceRecord := mkPrice {
  p_timestamp : datetime;
  p_pm : string;
  p_balance : Q
}.

(** A row of [shares_table]: columns [timestamp], [pm], [shares];
    a NULL share count is [NaN], here [None]. *)
Record ShareRecord := mkShare {
  s_timestamp : Timestamp;
  s_pm : string;
  s_shares : option Q
}.

(** A row of the left merge: the price row with the joined [shares] cell
    ([None] is [NaN], the cell of a price row without a match). *)
Record MergedRecord := mkMerged {
  m_timestamp : datetime;
  m_pm : string;
  m_balance : Q;
  m_shares : option Q
}.

(** A row of [result_df] once the [nav] column is set. *)
Record NavRecord := mkNav {
  n_timestamp : datetime;
  n_pm : string;
  n_balance : Q;
  n_shares : option Q;
  n_nav : Q
}.

(** A frame read back from the store: its column index and its rows.
    [pd.DataFrame()] has neither. *)
Record DataFrame (R : Type) := mkFrame {
  columns : list string;
  rows : list R
}.
Arguments mkFrame {R} columns rows.
Arguments columns {R} d.
Arguments rows {R} d.

Definition empty_frame {R : Type} : DataFrame R := mkFrame [] [].

(** ** What [DataFrame.to_sql] sends: one column/value row per record *)

Inductive cell :=
| CTime (t : datetime)
| CText (s : string)
| CNum (q : Q)
| CNull.

Definition sql_row := list (string * cell).

Class ToSql (R : Type) := to_sql_row : R -> sql_row.

#[export] Instance PriceRecord_ToSql : ToSql PriceRecord := fun r =>
  [("timestamp", CTime (p_timestamp r)); ("pm", CText (p_pm r));
   ("balance", CNum (p_balance r))].

Definition cell_of_float (x : option Q) : cell :=
  match x with Some q => CNum q | None => CNull end.

#[export] Instance NavRecord_ToSql : ToSql NavRecord := fun r =>
  [("timestamp", CTime (n_timestamp r)); ("pm", CText (n_pm r));
   ("balance", CNum (n_balance r)); ("shares", cell_of_float (n_shares r));
   ("nav", CNum (n_nav r))].

(** ** State and environment *)

Inductive write_mode := Append | Replace.

(** Calls that reach the store.  [create_engine] is lazy and opens no
    connection, so it is not one of them. *)
Inductive db_call :=
| ReadSql (query : string)
| ToSqlCall (table_name : string) (if_exists : write_mode) (records : list sql_row).

Record State := mkState {
  df : list PriceRecord;            (* self.df, columns timestamp/pm/balance *)
  store : string -> list sql_row;   (* destination tables by name *)
  api_calls : list string;          (* symbols asked of the exchange, oldest first *)
  clock_reads : nat;                (* calls of datetime.now() so far *)
  db_calls : list db_call;          (* calls that reached the store, oldest first *)
  log : list string                 (* logger.error and print lines of the except arms;
                                       info and debug lines are not kept *)
}.

(** The outside world: what the k-th exchange call, clock read and store
    call answer.  The connection string is fixed configuration, taken as
    well formed, so [create_engine] itself does not fail. *)
Record Env := mkEnv {
  ticker_price : nat -> string -> result Q;
  datetime_now : nat -> datetime;
  read_sql : nat -> string -> result (DataFrame ShareRecord);
  to_sql_raises : nat -> option exn
}.

Definition set_df (d : list PriceRecord) (s : State) : State :=
  mkState d (store s) (api_calls s) (clock_reads s) (db_calls s) (log s).

Definition add_log (line : string) (s : State) : State :=
  mkState (df s) (store s) (api_calls s) (clock_reads s) (db_calls s)
          (log s ++ [line]).

Definition add_api_call (symbol : string) (s : State) : State :=
  mkState (df s) (store s) (api_calls s ++ [symbol]) (clock_reads s)
          (db_calls s) (log s).

Definition tick_clock (s : State) : State :=
  mkState (df s) (store s) (api_calls s) (S (clock_reads s)) (db_calls s) (log s).

Definition add_db_call (c : db_call) (s : State) : State :=
  mkState (df s) (store s) (api_calls s) (clock_reads s) (db_calls s ++ [c])
          (log s).

Definition set_table (name : string) (content : list sql_row) (s : State) : State :=
  mkState (df s)
          (fun t => if String.eqb t name then content else store s t)
          (api_calls s) (clock_reads s) (db_calls s) (log s).

(** ** The monad: state that survives an exception *)

Definition M (A : Type) : Type := State -> result A * State.

Definition ret {A : Type} (a : A) : M A := fun s => (Ok a, s).

Definition bind {A B : Type} (m : M A) (f : A -> M B) : M B := fun s =>
  match m s with
  | (Ok a, s') => f a s'
  | (Raise e, s') => (Raise e, s')
  end.

Definition raise {A : Type} (e : exn) : M A := fun s => (Raise e, s).

(** [try: m  except Exception as e: handler e]. *)
Definition try_except {A : Type} (m : M A) (handler : exn -> M A) : M A := fun s =>
  match m s with
  | (Ok a, s') => (Ok a, s')
  | (Raise e, s') => handler e s'
  end.

Definition modify (f : State -> State) : M unit := fun s => (Ok tt, f s).

Definition get_state : M State := fun s => (Ok s, s).

Definition lift_result {A : Type} (r : result A) : M A := fun s => (r, s).

Declare Scope monad_scope.
Delimit Scope monad_scope with monad.
Notation "x <- m ;; k" := (bind m (fun x => k))
  (at level 61, m at next level, right associativity) : monad_scope.
Notation "m ;;; k" := (bind m (fun _ => k))
  (at level 61, right associativity) : monad_scope.
Local Open Scope monad_scope.

Definition logger_error (line : string) : M unit := modify (add_log line).
Definition print (line : string) : M unit := modify (add_log line).

(** ** Configuration *)

(** [CryptoPriceTracker.COIN_MAPPINGS], in insertion order. *)
Definition COIN_MAPPINGS : list (string * string) :=
  [("BTCUSDT", "benchmark_btc");
   ("ETHUSDT", "benchmark_eth");
   ("SOLUSDT", "benchmark_sol")].

Fixpoint dict_get {V : Type} (d : list (string * V)) (k : string) : option V :=
  match d with
  | [] => None
  | (k', v) :: rest => if String.eqb k k' then Some v else dict_get rest k
  end.

(** [k in d]. *)
Definition dict_contains {V : Type} (d : list (string * V)) (k : string) : bool :=
  match dict_get d k with Some _ => true | None => false end.

(** [d[k]], a [KeyError] when the key is missing. *)
Definition dict_getitem {V : Type} (d : list (string * V)) (k : string) : M V :=
  match dict_get d k with
  | Some v => ret v
  | None => raise (KeyError k)
  end.

Definition dict_keys {V : Type} (d : list (string * V)) : list string := map fst d.

(** ** Pure frame operations *)

(** [df.empty] of a frame whose columns are fixed: it has no row. *)
Definition frame_empty {R : Type} (d : list R) : bool :=
  match d with [] => true | _ :: _ => false end.

(** [.iloc[-1]]. *)
Fixpoint iloc_last {A : Type} (l : list A) : option A :=
  match l with
  | [] => None
  | [x] => Some x
  | _ :: rest => iloc_last rest
  end.

(** [get_latest_price] reads [self.df] only, so it takes the table. *)
Definition get_latest_price (self_df : list PriceRecord) (pm : string) : option Q :=
  let filtered := filter (fun r => String.eqb (p_pm r) pm) self_df in
  if frame_empty filtered then None
  else option_map p_balance (iloc_last filtered).

(** [drop_duplicates(subset='pm')] with the default [keep='first']: a row
    is kept when its [pm] was not seen in an earlier row. *)
Fixpoint drop_duplicates_from (seen : list string) (l : list ShareRecord)
  : list ShareRecord :=
  match l with
  | [] => []
  | r :: rest =>
      if existsb (String.eqb (s_pm r)) seen
      then drop_duplicates_from seen rest
      else r :: drop_duplicates_from (s_pm r :: seen) rest
  end.

Definition drop_duplicates (l : list ShareRecord) : list ShareRecord :=
  drop_duplicates_from [] l.

(** [pd.merge(left, right[['pm','shares']], on='pm', how='left')]: left
    order is kept; a left row is paired with every right row of its key,
    or with [NaN] when there is none. *)
Definition merge (left : list PriceRecord) (right : list ShareRecord)
  : list MergedRecord :=
  flat_map
    (fun p =>
       match filter (fun r => String.eqb (s_pm r) (p_pm p)) right with
       | [] => [mkMerged (p_timestamp p) (p_pm p) (p_balance p) None]
       | matches =>
           map (fun r => mkMerged (p_timestamp p) (p_pm p) (p_balance p) (s_shares r))
               matches
       end)
    left.

(** Float division [a / b]: dividing by zero raises. *)
Definition truediv (a b : Q) : result Q :=
  if Qeq_bool b 0 then Raise ZeroDivisionError else Ok (a / b)%Q.

(** The lambda of [update_nav]:
    [0 if pd.isna(row['shares']) or row['shares'] == 0
       else row['balance'] / row['shares']]. *)
Definition nav_lambda (row : MergedRecord) : result Q :=
  match m_shares row with
  | None => Ok 0%Q
  | Some shares =>
      if Qeq_bool shares 0 then Ok 0%Q else truediv (m_balance row) shares
  end.

(** [result_df['nav'] = result_df.apply(lambda, axis=1)]: row by row, the
    first exception aborts.  (On a frame without rows pandas does not call
    the lambda; whatever it then does, nothing is written, see
    [df_to_table].) *)
Fixpoint apply_nav (merged : list MergedRecord) : result (list NavRecord) :=
  match merged with
  | [] => Ok []
  | row :: rest =>
      match nav_lambda row with
      | Raise e => Raise e
      | Ok nav =>
          match apply_nav rest with
          | Raise e => Raise e
          | Ok out =>
              Ok (mkNav (m_timestamp row) (m_pm row) (m_balance row)
                        (m_shares row) nav :: out)
          end
      end
  end.

(** One admissible [sort_values(by='timestamp', ascending=False)]: the
    stable one (ties keep their order), by insertion. *)
Fixpoint insert_desc (r : ShareRecord) (l : list ShareRecord) : list ShareRecord :=
  match l with
  | [] => [r]
  | h :: t =>
      if ts_ltb (s_timestamp r) (s_timestamp h)
      then h :: insert_desc r t
      else r :: h :: t
  end.

Fixpoint stable_sort_desc (l : list ShareRecord) : list ShareRecord :=
  match l with
  | [] => []
  | r :: rest => insert_desc r (stable_sort_desc rest)
  end.

(** Newest first, [NaT] last. *)
Definition newest_first (l : list ShareRecord) : Prop :=
  StronglySorted (fun a b => ts_leb (s_timestamp b) (s_timestamp a) = true) l.

Section Program.

Variable env : Env.

(** [shares.sort_values(by='timestamp', ascending=False)].  pandas sorts
    with an unstable algorithm by default, so the order of rows with
    equal timestamps is not fixed; the sort is a parameter, and what a
    theorem needs of it is a hypothesis of that theorem. *)
Variable sort_values : list ShareRecord -> list ShareRecord.

(** *** db_utils.py *)

(** [pd.read_sql(query, engine)]. *)
Definition pd_read_sql (query : string) : M (DataFrame ShareRecord) := fun s =>
  (read_sql env (List.length (db_calls s)) query, add_db_call (ReadSql query) s).

(** [df.to_sql(table_name, engine, if_exists=..., index=False)]: the call
    reaches the store; when it raises, the transaction leaves the table
    as it was. *)
Definition to_sql {R : Type} `{ToSql R}
    (d : list R) (table_name : string) (if_exists : write_mode) : M unit := fun s =>
  let records := map to_sql_row d in
  let s1 := add_db_call (ToSqlCall table_name if_exists records) s in
  match to_sql_raises env (List.length (db_calls s)) with
  | Some e => (Raise e, s1)
  | None =>
      let content :=
        match if_exists with
        | Append => store s table_name ++ records
        | Replace => records
        end in
      (Ok tt, set_table table_name content s1)
  end.

Definition get_db_table (query : string) : M (DataFrame ShareRecord) :=
  try_except
    (d <- pd_read_sql query ;; ret d)
    (fun e =>
       print ("Error encountered getting sql table with this query " ++ query) ;;;
       ret empty_frame).

Definition df_to_table {R : Type} `{ToSql R}
    (table_name : string) (d : list R) : M unit :=
  if frame_empty d then ret tt
  else
    try_except (to_sql d table_name Append)
      (fun e => print ("Error encountered when updating " ++ table_name)) ;;;
    ret tt.

Definition df_replace_table {R : Type} `{ToSql R}
    (table_name : string) (d : list R) : M unit :=
  if frame_empty d then ret tt
  else
    try_except (to_sql d table_name Replace)
      (fun e => print ("Error encountered when updating " ++ table_name)) ;;;
    ret tt.

(** *** main.py, CryptoPriceTracker *)

(** [self.client.rest_api.ticker_price(symbol)] up to [float(...price)]. *)
Definition api_ticker_price (symbol : string) : M Q := fun s =>
  (ticker_price env (List.length (api_calls s)) symbol, add_api_call symbol s).

Definition get_ticker_price (symbol : string) : M (option Q) :=
  try_except
    (price <- api_ticker_price symbol ;; ret (Some price))
    (fun e =>
       logger_error ("Error fetching ticker price for " ++ symbol) ;;;
       ret None).

Definition now : M datetime := fun s =>
  (Ok (datetime_now env (clock_reads s)), tick_clock s).

Definition get_current_timestamp : M datetime :=
  n <- now ;; ret (replace n 0 0).

Definition add_price_record (symbol : string) : M bool :=
  if negb (dict_contains COIN_MAPPINGS symbol) then
    logger_error ("Symbol " ++ symbol ++ " not found in COIN_MAPPINGS") ;;;
    ret false
  else
    price <- get_ticker_price symbol ;;
    match price with
    | None => ret false
    | Some price =>
        timestamp <- get_current_timestamp ;;
        pm <- dict_getitem COIN_MAPPINGS symbol ;;
        let new_record := [mkPrice timestamp pm price] in
        modify (fun s => set_df (df s ++ new_record) s) ;;;
        ret true
    end.

Fixpoint add_prices_loop (symbols : list string) (success_count : nat) : M nat :=
  match symbols with
  | [] => ret success_count
  | symbol :: rest =>
      ok <- add_price_record symbol ;;
      add_prices_loop rest (if ok then S success_count else success_count)
  end.

Definition add_multiple_prices (symbols : option (list string)) : M nat :=
  let symbols :=
    match symbols with
    | None => dict_keys COIN_MAPPINGS
    | Some l => l
    end in
  add_prices_loop symbols 0.

Definition save_to_db : M unit :=
  try_except
    (s <- get_state ;; df_to_table "balance_all_consolidated" (df s))
    (fun e => logger_error "Error saving to DB").

(** [frame[col]]: a [KeyError] when the frame has no such column. *)
Definition getitem_column {R : Type} (frame : DataFrame R) (col : string) : M unit :=
  if existsb (String.eqb col) (columns frame) then ret tt
  else raise (KeyError col).

(** Line 212. *)
Definition latest_shares_of (shares : list ShareRecord) : list ShareRecord :=
  drop_duplicates (sort_values shares).

(** The [try] block of [update_nav]; it yields [result_df].  The rows
    read are typed, so [pd.to_datetime] has nothing left to parse and only
    its column access shows; [print(result_df)] goes to stdout and is
    left out. *)
Definition update_nav_body : M (list NavRecord) :=
  let query := "select * from shares_table;" in
  shares <- get_db_table query ;;
  getitem_column shares "timestamp" ;;;
  getitem_column shares "pm" ;;;
  let latest_shares := latest_shares_of (rows shares) in
  getitem_column shares "shares" ;;;
  s <- get_state ;;
  result_df <- lift_result (apply_nav (merge (df s) latest_shares)) ;;
  df_to_table "nav_table" result_df ;;;
  ret result_df.

Definition update_nav : M unit :=
  try_except
    (update_nav_body ;;; ret tt)
    (fun e => logger_error "Error udpaing nav_table").

End Program.

(** ** The rest of main.py: the summary and the entry point *)

(** [Series.unique()]: the distinct values in order of first appearance. *)
Fixpoint unique_from (seen : list string) (values : list string) : list string :=
  match values with
  | [] => []
  | v :: rest =>
      if existsb (String.eqb v) seen
      then unique_from seen rest
      else v :: unique_from (v :: seen) rest
  end.

Definition unique (values : list string) : list string := unique_from [] values.

(** One printed line of the summary, [f"{pm:20s}: ${latest_price:,.2f}"]:
    the asset and the number that is formatted (its digits are not
    modelled). *)
Record summary_line := mkLine {
  line_pm : string;
  line_price : Q
}.

(** What [display_summary] does: it logs "No data available"; or it prints
    the record count and one line per asset; or the format specification
    meets [None] and raises [TypeError] after the lines printed so far. *)
Inductive summary :=
| NoDataAvailable
| Summary (total_records : nat) (lines : list summary_line)
| FormatTypeError (pm : string) (lines_before : list summary_line).

(** The loop of [display_summary], from the lines already printed. *)
Fixpoint print_latest_prices (self_df : list PriceRecord) (total : nat)
    (printed : list summary_line) (pms : list string) : summary :=
  match pms with
  | [] => Summary total printed
  | pm :: rest =>
      match get_latest_price self_df pm with
      | None => FormatTypeError pm printed
      | Some latest_price =>
          print_latest_prices self_df total (printed ++ [mkLine pm latest_price]) rest
      end
  end.

Definition display_summary (self_df : list PriceRecord) : summary :=
  if frame_empty self_df then NoDataAvailable
  else print_latest_prices self_df (List.length self_df) []
         (unique (map p_pm self_df)).

(** How [main] ends: it returns the tracker, or its [except] arm logs and
    re-raises. *)
Inductive main_result :=
| MainReturned
| MainReraised.

(** [main()]: a new tracker (an empty table, line 63) in the current world,
    then fetch, display, save, NAV.  The construction of the exchange
    client is taken to succeed; the two prints of [main] go to stdout. *)
Definition main (env : Env) (sort_values : list ShareRecord -> list ShareRecord)
    (world : State) : main_result * State :=
  let reraise := fun s => (MainReraised, add_log "Error in main execution" s) in
  let tracker := set_df [] world in
  match add_multiple_prices env None tracker with
  | (Raise _, s1) => reraise s1
  | (Ok _, s1) =>
      match display_summary (df s1) with
      | FormatTypeError _ _ => reraise s1
      | _ =>
          match save_to_db env s1 with
          | (Raise _, s2) => reraise s2
          | (Ok _, s2) =>
              match update_nav env sort_values s2 with
              | (Raise _, s3) => reraise s3
              | (Ok _, s3) => (MainReturned, s3)
              end
          end
      end
  end.

(** * Vocabulary of the properties *)

Definition canonical (symbol : string) : string :=
  match dict_get COIN_MAPPINGS symbol with Some pm => pm | None => "" end.

Definition configured (symbol : string) : Prop :=
  dict_contains COIN_MAPPINGS symbol = true.

Definition is_failure {A : Type} (r : result A) : bool :=
  match r with Ok _ => false | Raise _ => true end.

Definition whole_minute (t : datetime) : Prop :=
  second t = 0%Z /\ microsecond t = 0%Z.

Definition minute_aligned (table : list PriceRecord) : Prop :=
  Forall (fun r => whole_minute (p_timestamp r)) table.

(** The states a run can be in: the tracker starts with an empty table and
    then only its methods act on the state. *)
Inductive reachable (env : Env) (sort_values : list ShareRecord -> list ShareRecord)
  : State -> Prop :=
| reach_init : forall s, df s = [] -> reachable env sort_values s
| reach_add_price_record : forall s symbol,
    reachable env sort_values s ->
    reachable env sort_values (snd (add_price_record env symbol s))
| reach_add_multiple_prices : forall s symbols,
    reachable env sort_values s ->
    reachable env sort_values (snd (add_multiple_prices env symbols s))
| reach_save_to_db : forall s,
    reachable env sort_values s ->
    reachable env sort_values (snd (save_to_db env s))
| reach_update_nav : forall s,
    reachable env sort_values s ->
    reachable env sort_values (snd (update_nav env sort_values s)).

Definition preserves_df {A : Type} (m : M A) : Prop :=
  forall s, df (snd (m s)) = df s.

(** What the exchange answers to the [j]-th symbol of the list when the
    step starts in state [s]: a configured symbol costs one call. *)
Definition answer (env : Env) (s : State) (symbols : list string) (j : nat) : result Q :=
  ticker_price env (List.length (api_calls s) + j) (nth j symbols "").

(** The list [add_multiple_prices] iterates over. *)
Definition symbols_of (arg : option (list string)) : list string :=
  match arg with
  | None => dict_keys COIN_MAPPINGS
  | Some l => l
  end.

(** Rows of one asset. *)
Definition of_asset (asset : string) (r : ShareRecord) : bool :=
  String.eqb (s_pm r) asset.

(** The [shares] cell the left join gives a price row: that of the
    projection's row of the same asset, [NaN] when there is none. *)
Definition joined_shares (latest : list ShareRecord) (pm : string) : option Q :=
  match find (of_asset pm) latest with
  | Some r => s_shares r
  | None => None
  end.

Definition nav_value (price : Q) (shares : option Q) : Q :=
  match shares with
  | None => 0%Q
  | Some sh => if Qeq_bool sh 0 then 0%Q else (price / sh)%Q
  end.

Definition nav_record_of (latest : list ShareRecord) (p : PriceRecord) : NavRecord :=
  mkNav (p_timestamp p) (p_pm p) (p_balance p)
        (joined_shares latest (p_pm p))
        (nav_value (p_balance p) (joined_shares latest (p_pm p))).

(** How an output row [n] relates to the price row [p] it comes from. *)
Definition nav_row_of (latest : list ShareRecord) (p : PriceRecord) (n : NavRecord)
  : Prop :=
  n_timestamp n = p_timestamp p
  /\ n_pm n = p_pm p
  /\ n_balance n = p_balance p
  /\ n_shares n = joined_shares latest (p_pm p)
  /\ match n_shares n with
     | None => n_nav n = 0%Q
     | Some sh =>
         if Qeq_bool sh 0 then n_nav n = 0%Q
         else n_nav n = (p_balance p / sh)%Q
     end.

Definition shares_query : string := "select * from shares_table;".

Definition read_error_line : string :=
  "Error encountered getting sql table with this query " ++ shares_query.

(** * Vocabulary of the further properties *)

(** A store call the pipeline may make on [tables]: a read, or an append
    to one of them. *)
Definition benign_call (tables : list string) (c : db_call) : Prop :=
  match c with
  | ReadSql _ => True
  | ToSqlCall table_name if_exists _ => if_exists = Append /\ In table_name tables
  end.

(** From [s] to [s'] stored rows were only added, at the end of tables of
    [tables], by calls that are reads or appends to them. *)
Definition grew_only (tables : list string) (s s' : State) : Prop :=
  (forall t, exists extra, store s' t = store s t ++ extra)
  /\ (forall t, ~ In t tables -> store s' t = store s t)
  /\ (exists calls, db_calls s' = db_calls s ++ calls
                    /\ Forall (benign_call tables) calls).

Definition append_only {A : Type} (tables : list string) (m : M A) : Prop :=
  forall s, grew_only tables s (snd (m s)).

Definition never_raises {A : Type} (m : M A) : Prop :=
  forall s, exists a, fst (m s) = Ok a.

(** The (canonical name, price) pairs a run of the fetch loop collects when
    the exchange has been called [k] times before: a symbol outside the
    configuration costs no call, a failed fetch costs one and gives
    nothing. *)
Fixpoint quotes (env : Env) (k : nat) (symbols : list string) : list (string * Q) :=
  match symbols with
  | [] => []
  | symbol :: rest =>
      match dict_get COIN_MAPPINGS symbol with
      | None => quotes env k rest
      | Some pm =>
          match ticker_price env k symbol with
          | Ok price => (pm, price) :: quotes env (S k) rest
          | Raise _ => quotes env (S k) rest
          end
      end
  end.

(** Two clock readings of the same minute. *)
Definition same_minute (a b : datetime) : Prop :=
  year a = year b /\ month a = month b /\ day a = day b
  /\ hour a = hour b /\ minute a = minute b.

(** Every record names an asset of the configuration. *)
Definition holds_configured_assets (table : list PriceRecord) : Prop :=
  Forall (fun r => In (p_pm r) (map snd COIN_MAPPINGS)) table.

(** * Concrete inputs *)

Definition rec3 (t : datetime) (pm : string) (price : Q) : PriceRecord :=
  mkPrice t pm price.

Definition fresh_state : State := mkState [] (fun _ => []) [] 0 [] [].

Definition always_quoting : Env :=
  mkEnv (fun _ _ => Ok (100 # 1)%Q)
        (fun _ => mkDatetime 2025 1 2 3 4 55 123456)
        (fun _ _ => Ok (mkFrame ["timestamp"; "pm"; "shares"] []))
        (fun _ => None).

Definition one_nav_row : sql_row :=
  [("timestamp", CTime (mkDatetime 2025 1 1 0 0 0 0)); ("pm", CText "benchmark_btc");
   ("balance", CNum (1 # 1)); ("shares", CNull); ("nav", CNum (0 # 1))].

Definition state_with_nav : State :=
  mkState [] (fun t => if String.eqb t "nav_table" then [one_nav_row] else [])
          [] 0 [] [].

(** The exchange answers every call but the second. *)
Definition second_call_fails : Env :=
  mkEnv (fun k _ => if Nat.eqb k 1 then Raise (ApiError "timeout")
                    else Ok (100 # 1)%Q)
        (fun _ => mkDatetime 2025 1 2 3 4 55 123456)
        (fun _ _ => Ok (mkFrame ["timestamp"; "pm"; "shares"] []))
        (fun _ => None).

(** The spec's shares table: [(t0, x, 0); (t1, x, 50)] with [t0 < t1]. *)
Definition shares_x : list ShareRecord :=
  [mkShare (Some 1000%Z) "x" (Some (0 # 1)%Q);
   mkShare (Some 2000%Z) "x" (Some (50 # 1)%Q)].

(** A store that answers the shares read without rows and accepts writes;
    [nav_table] already holds a row of an earlier run. *)
Definition price_x : PriceRecord :=
  rec3 (mkDatetime 2025 1 2 3 4 0 0) "benchmark_btc" (100 # 1).

Definition state_before_nav : State :=
  mkState [price_x]
          (fun t => if String.eqb t "nav_table" then [one_nav_row] else [])
          [] 0 [] [].

(** The store refuses the read. *)
Definition store_down : Env :=
  mkEnv (fun _ _ => Ok (100 # 1)%Q)
        (fun _ => mkDatetime 2025 1 2 3 4 55 123456)
        (fun _ _ => Raise (DatabaseError "connection refused"))
        (fun _ => None).

Definition store_rejects_writes : Env :=
  mkEnv (fun _ _ => Ok (100 # 1)%Q)
        (fun _ => mkDatetime 2025 1 2 3 4 55 123456)
        (fun _ _ => Ok (mkFrame ["timestamp"; "pm"; "shares"] []))
        (fun _ => Some (DatabaseError "read-only transaction")).

(** A shares table that has no [shares] column. *)
Definition shares_column_missing : Env :=
  mkEnv (fun _ _ => Ok (100 # 1)%Q)
        (fun _ => mkDatetime 2025 1 2 3 4 55 123456)
        (fun _ _ => Ok (mkFrame ["timestamp"; "pm"]
                          [mkShare (Some 5%Z) "benchmark_btc" None]))
        (fun _ => None).

(** The price write fails, the NAV write works. *)
Definition first_write_fails : Env :=
  mkEnv (fun _ _ => Ok (100 # 1)%Q)
        (fun _ => mkDatetime 2025 1 2 3 4 55 123456)
        (fun _ _ => Ok (mkFrame ["timestamp"; "pm"; "shares"]
                          [mkShare (Some 5%Z) "benchmark_btc" (Some (50 # 1)%Q)]))
        (fun k => if Nat.eqb k 0 then Some (DatabaseError "deadlock") else None).

(** * Properties *)

Arguments to_sql_row {R ToSql} _ : simpl never.

(** ** Lists *)

Lemma iloc_last_snoc {A : Type} (l : list A) (x : A) :
  iloc_last (l ++ [x]) = Some x.
Proof.
  induction l as [|a l IH]; [reflexivity|].
  simpl. rewrite IH. destruct (l ++ [x]) eqn:E; [|reflexivity].
  destruct l; discriminate.
Qed.

Lemma frame_empty_snoc {A : Type} (l : list A) (x : A) :
  frame_empty (l ++ [x]) = false.
Proof. destruct l; reflexivity. Qed.

Lemma frame_empty_nil {A : Type} (l : list A) :
  frame_empty l = true -> l = [].
Proof. destruct l; [reflexivity | discriminate]. Qed.

Lemma filter_none {A : Type} (f : A -> bool) (l : list A) :
  (forall x, In x l -> f x = false) -> filter f l = [].
Proof.
  induction l as [|a l IH]; intros H; [reflexivity|].
  simpl. rewrite (H a (or_introl eq_refl)). apply IH.
  intros x Hx. apply H. now right.
Qed.

(** ** The price table *)

(** C6. [get_latest_price] returns the price of the last appended record of
    the asset, whatever the timestamps are: when the table splits as
    [before ++ r :: after] with [r] of that asset and no record of it in
    [after], the answer is [r]'s price; when no record of the asset exists
    the answer is the missing marker [None]; and on
    [(t1,A,10); (t2,A,12); (t1,B,5)] it is 12 for [A] and 5 for [B], for
    any [t1], [t2]. *)
Theorem get_latest_price_last_appended :
  (forall (before after : list PriceRecord) (r : PriceRecord) (pm : string),
      p_pm r = pm ->
      (forall r', In r' after -> p_pm r' <> pm) ->
      get_latest_price (before ++ r :: after) pm = Some (p_balance r))
  /\ (forall (table : list PriceRecord) (pm : string),
         (forall r, In r table -> p_pm r <> pm) ->
         get_latest_price table pm = None)
  /\ (forall (t1 t2 : datetime) (A B : string),
         A <> B ->
         let table := [rec3 t1 A (10 # 1); rec3 t2 A (12 # 1); rec3 t1 B (5 # 1)] in
         get_latest_price table A = Some (12 # 1)%Q
         /\ get_latest_price table B = Some (5 # 1)%Q).
Proof.
  assert (Hsplit :
    forall (before after : list PriceRecord) (r : PriceRecord) (pm : string),
      p_pm r = pm ->
      (forall r', In r' after -> p_pm r' <> pm) ->
      get_latest_price (before ++ r :: after) pm = Some (p_balance r)).
  { intros before after r pm Hr Hafter. unfold get_latest_price.
    rewrite filter_app. simpl.
    rewrite (proj2 (String.eqb_eq _ _) Hr).
    rewrite (filter_none _ after).
    - rewrite frame_empty_snoc, iloc_last_snoc. reflexivity.
    - intros x Hx. apply String.eqb_neq. now apply Hafter. }
  split; [exact Hsplit|]. split.
  - intros table pm Hnone. unfold get_latest_price.
    rewrite filter_none; [reflexivity|].
    intros x Hx. apply String.eqb_neq. now apply Hnone.
  - intros t1 t2 A B HAB table. split.
    + apply (Hsplit [rec3 t1 A (10 # 1)] [rec3 t1 B (5 # 1)] (rec3 t2 A (12 # 1)) A).
      * reflexivity.
      * intros r' [<-|[]]. simpl. congruence.
    + apply (Hsplit [rec3 t1 A (10 # 1); rec3 t2 A (12 # 1)] [] (rec3 t1 B (5 # 1)) B).
      * reflexivity.
      * intros r' [].
Qed.

(** The later-appended record wins although its timestamp is the older one. *)
Lemma get_latest_price_last_appended_witness :
  get_latest_price
    [rec3 (mkDatetime 2025 1 1 10 30 0 0) "benchmark_btc" (10 # 1);
     rec3 (mkDatetime 2025 1 1 10 29 0 0) "benchmark_btc" (12 # 1);
     rec3 (mkDatetime 2025 1 1 10 30 0 0) "benchmark_eth" (5 # 1)]
    "benchmark_btc" = Some (12 # 1)%Q.
Proof.
  apply (proj1 get_latest_price_last_appended
           [rec3 (mkDatetime 2025 1 1 10 30 0 0) "benchmark_btc" (10 # 1)]
           [rec3 (mkDatetime 2025 1 1 10 30 0 0) "benchmark_eth" (5 # 1)]
           (rec3 (mkDatetime 2025 1 1 10 29 0 0) "benchmark_btc" (12 # 1))
           "benchmark_btc").
  - reflexivity.
  - intros r' [<-|[]]. simpl. discriminate.
Defined.

(** C10. A symbol that is not a key of [COIN_MAPPINGS] makes
    [add_price_record] return [False]; the exchange is not called and
    [self.df] is as before (only the error line is logged). *)
Theorem add_price_record_unknown_symbol
    (env : Env) (symbol : string) (s : State) :
  dict_get COIN_MAPPINGS symbol = None ->
  let (r, s') := add_price_record env symbol s in
  r = Ok false
  /\ df s' = df s
  /\ api_calls s' = api_calls s
  /\ clock_reads s' = clock_reads s
  /\ s' = add_log ("Symbol " ++ symbol ++ " not found in COIN_MAPPINGS") s.
Proof.
  intros Hmiss. unfold add_price_record, dict_contains.
  rewrite Hmiss. simpl. repeat split.
Qed.

Lemma add_price_record_unknown_symbol_witness :
  let (r, s') := add_price_record always_quoting "BNBUSDT" fresh_state in
  r = Ok false
  /\ df s' = df fresh_state
  /\ api_calls s' = api_calls fresh_state
  /\ clock_reads s' = clock_reads fresh_state
  /\ s' = add_log ("Symbol " ++ "BNBUSDT" ++ " not found in COIN_MAPPINGS") fresh_state.
Proof.
  apply (add_price_record_unknown_symbol always_quoting "BNBUSDT" fresh_state).
  reflexivity.
Defined.

(** ** The persistence adapter *)

(** C7. Given a record set without rows, [df_to_table] and
    [df_replace_table] return normally and leave the whole state as it was:
    no call reaches the store, no table changes, nothing is logged. *)
Theorem empty_write_is_noop
    {R : Type} `{ToSql R} (env : Env) (table_name : string) (d : list R) (s : State) :
  frame_empty d = true ->
  df_to_table env table_name d s = (Ok tt, s)
  /\ df_replace_table env table_name d s = (Ok tt, s).
Proof.
  intros He. apply frame_empty_nil in He. subst d. split; reflexivity.
Qed.

Lemma empty_write_is_noop_witness :
  df_to_table always_quoting "nav_table" (@nil NavRecord) state_with_nav
    = (Ok tt, state_with_nav)
  /\ df_replace_table always_quoting "nav_table" (@nil NavRecord) state_with_nav
    = (Ok tt, state_with_nav).
Proof.
  apply (empty_write_is_noop always_quoting "nav_table" (@nil NavRecord) state_with_nav).
  reflexivity.
Defined.

(** C8. [get_db_table] never raises: whatever the store answers to the
    query, the caller gets a frame, the rows read when the read worked and
    the frame without columns or rows when it raised (with one line
    printed); no table changes and exactly one call reaches the store. *)
Theorem get_db_table_never_raises (env : Env) (query : string) (s : State) :
  exists frame s',
    get_db_table env query s = (Ok frame, s')
    /\ store s' = store s
    /\ df s' = df s
    /\ db_calls s' = db_calls s ++ [ReadSql query]
    /\ match read_sql env (List.length (db_calls s)) query with
       | Ok read => frame = read /\ log s' = log s
       | Raise _ =>
           frame = empty_frame
           /\ log s' = log s ++
                [("Error encountered getting sql table with this query " ++ query)%string]
       end.
Proof.
  unfold get_db_table, try_except, bind, pd_read_sql.
  destruct (read_sql env (List.length (db_calls s)) query) as [read|e]; simpl.
  - eexists _, _. repeat split.
  - eexists _, _. repeat split.
Qed.

(** ** Appending to the price table *)

Lemma get_current_timestamp_whole_minute (env : Env) (s : State) :
  exists t, get_current_timestamp env s = (Ok t, tick_clock s) /\ whole_minute t.
Proof.
  eexists. split; [reflexivity|]. split; reflexivity.
Qed.

(** The three ways through [add_price_record]. *)
Lemma add_price_record_run (env : Env) (symbol : string) (s : State) :
  match dict_get COIN_MAPPINGS symbol with
  | None =>
      add_price_record env symbol s
      = (Ok false, add_log ("Symbol " ++ symbol ++ " not found in COIN_MAPPINGS") s)
  | Some pm =>
      match ticker_price env (List.length (api_calls s)) symbol with
      | Raise _ =>
          add_price_record env symbol s
          = (Ok false,
             add_log ("Error fetching ticker price for " ++ symbol)
                     (add_api_call symbol s))
      | Ok price =>
          add_price_record env symbol s
          = (Ok true,
             set_df (df s ++ [mkPrice (replace (datetime_now env (clock_reads s)) 0 0)
                                      pm price])
                    (tick_clock (add_api_call symbol s)))
      end
  end.
Proof.
  unfold add_price_record, dict_contains, dict_getitem.
  destruct (dict_get COIN_MAPPINGS symbol) as [pm|] eqn:Hpm; [|reflexivity].
  cbn [negb].
  unfold get_ticker_price, get_current_timestamp, now, try_except, bind,
    api_ticker_price.
  destruct (ticker_price env (List.length (api_calls s)) symbol) as [price|e];
    reflexivity.
Qed.

(** Every call of [add_price_record] leaves the old rows in place and adds
    at most one row, stamped on a whole minute. *)
Lemma add_price_record_appends (env : Env) (symbol : string) (s : State) :
  exists appended,
    df (snd (add_price_record env symbol s)) = df s ++ appended
    /\ minute_aligned appended.
Proof.
  pose proof (add_price_record_run env symbol s) as Hrun.
  destruct (dict_get COIN_MAPPINGS symbol) as [pm|].
  - destruct (ticker_price env (List.length (api_calls s)) symbol) as [price|e];
      rewrite Hrun; simpl.
    + eexists. split; [reflexivity|]. repeat constructor.
    + exists []. rewrite app_nil_r. split; [reflexivity | constructor].
  - rewrite Hrun. exists []. simpl. rewrite app_nil_r.
    split; [reflexivity | constructor].
Qed.

Lemma add_prices_loop_appends (env : Env) (symbols : list string) :
  forall (count : nat) (s : State),
  exists appended,
    df (snd (add_prices_loop env symbols count s)) = df s ++ appended
    /\ minute_aligned appended.
Proof.
  induction symbols as [|symbol rest IH]; intros count s.
  - exists []. simpl. rewrite app_nil_r. split; [reflexivity | constructor].
  - destruct (add_price_record_appends env symbol s) as (a1 & Hdf1 & Hal1).
    pose proof (add_price_record_run env symbol s) as Hrun.
    cbn [add_prices_loop]. unfold bind.
    destruct (add_price_record env symbol s) as [[ok|e] s1] eqn:Hstep.
    + destruct (IH (if ok then S count else count) s1) as (a2 & Hdf2 & Hal2).
      exists (a1 ++ a2). rewrite Hdf2. simpl in Hdf1. rewrite Hdf1, app_assoc.
      split; [reflexivity|]. apply Forall_app. now split.
    + exfalso.
      destruct (dict_get COIN_MAPPINGS symbol);
        [destruct (ticker_price env (List.length (api_calls s)) symbol)|];
        discriminate.
Qed.

Lemma to_sql_df {R : Type} `{ToSql R} (env : Env)
    (d : list R) (table_name : string) (mode : write_mode) (s : State) :
  df (snd (to_sql env d table_name mode s)) = df s.
Proof.
  unfold to_sql. destruct (to_sql_raises env (List.length (db_calls s))); reflexivity.
Qed.

Lemma df_to_table_df {R : Type} `{ToSql R} (env : Env)
    (table_name : string) (d : list R) (s : State) :
  df (snd (df_to_table env table_name d s)) = df s.
Proof.
  unfold df_to_table. destruct (frame_empty d); [reflexivity|].
  unfold bind, try_except.
  pose proof (to_sql_df env d table_name Append s) as Hdf.
  destruct (to_sql env d table_name Append s) as [[[]|e] s1]; simpl in *; exact Hdf.
Qed.

Lemma df_to_table_ok {R : Type} `{ToSql R} (env : Env)
    (table_name : string) (d : list R) (s : State) :
  fst (df_to_table env table_name d s) = Ok tt.
Proof.
  unfold df_to_table. destruct (frame_empty d); [reflexivity|].
  unfold bind, try_except.
  destruct (to_sql env d table_name Append s) as [[[]|e] s1]; reflexivity.
Qed.

Lemma save_to_db_df (env : Env) (s : State) :
  df (snd (save_to_db env s)) = df s.
Proof.
  unfold save_to_db, try_except, bind, get_state.
  pose proof (df_to_table_df env "balance_all_consolidated" (df s) s) as Hdf.
  pose proof (df_to_table_ok env "balance_all_consolidated" (df s) s) as Hok.
  destruct (df_to_table env "balance_all_consolidated" (df s) s) as [[[]|e] s1];
    simpl in *; [exact Hdf | discriminate].
Qed.

Lemma get_db_table_df (env : Env) (query : string) (s : State) :
  df (snd (get_db_table env query s)) = df s.
Proof.
  destruct (get_db_table_never_raises env query s) as (f & s' & Hrun & _ & Hdf & _).
  rewrite Hrun. exact Hdf.
Qed.

(** *** Steps that leave [self.df] alone *)

Lemma preserves_df_ret {A : Type} (a : A) : preserves_df (ret a).
Proof. intros s. reflexivity. Qed.

Lemma preserves_df_raise {A : Type} (e : exn) : preserves_df (@raise A e).
Proof. intros s. reflexivity. Qed.

Lemma preserves_df_lift_result {A : Type} (r : result A) :
  preserves_df (lift_result r).
Proof. intros s. reflexivity. Qed.

Lemma preserves_df_get_state : preserves_df get_state.
Proof. intros s. reflexivity. Qed.

Lemma preserves_df_add_log (line : string) : preserves_df (modify (add_log line)).
Proof. intros s. reflexivity. Qed.

Lemma preserves_df_bind {A B : Type} (m : M A) (f : A -> M B) :
  preserves_df m -> (forall a, preserves_df (f a)) -> preserves_df (bind m f).
Proof.
  intros Hm Hf s. unfold bind. specialize (Hm s).
  destruct (m s) as [[a|e] s1]; simpl in *.
  - rewrite Hf. exact Hm.
  - exact Hm.
Qed.

Lemma preserves_df_try_except {A : Type} (m : M A) (h : exn -> M A) :
  preserves_df m -> (forall e, preserves_df (h e)) -> preserves_df (try_except m h).
Proof.
  intros Hm Hh s. unfold try_except. specialize (Hm s).
  destruct (m s) as [[a|e] s1]; simpl in *.
  - exact Hm.
  - rewrite Hh. exact Hm.
Qed.

Lemma preserves_df_getitem_column {R : Type} (frame : DataFrame R) (col : string) :
  preserves_df (getitem_column frame col).
Proof.
  intros s. unfold getitem_column.
  destruct (existsb (String.eqb col) (columns frame)); reflexivity.
Qed.

Lemma preserves_df_df_to_table {R : Type} `{ToSql R} (env : Env)
    (table_name : string) (d : list R) :
  preserves_df (df_to_table env table_name d).
Proof. intros s. apply df_to_table_df. Qed.

Lemma preserves_df_get_db_table (env : Env) (query : string) :
  preserves_df (get_db_table env query).
Proof. intros s. apply get_db_table_df. Qed.

Create HintDb frame_db.
#[export] Hint Resolve preserves_df_ret preserves_df_raise preserves_df_lift_result
  preserves_df_get_state preserves_df_add_log preserves_df_getitem_column
  preserves_df_df_to_table preserves_df_get_db_table : frame_db.

Ltac preserves_df_step :=
  first [ apply preserves_df_bind; [|intros ?]
        | apply preserves_df_try_except; [|intros ?]
        | solve [unfold logger_error, print; auto with frame_db] ].

Lemma preserves_df_update_nav
    (env : Env) (sort_values : list ShareRecord -> list ShareRecord) :
  preserves_df (update_nav env sort_values).
Proof.
  unfold update_nav, update_nav_body. repeat preserves_df_step.
Qed.

(** C5. In every state a run can reach (the table starts empty; then
    [add_price_record], [add_multiple_prices], [save_to_db] and
    [update_nav] act in any order and number), each record of the price
    table carries a timestamp whose seconds and microseconds are zero. *)
Theorem price_table_minute_aligned
    (env : Env) (sort_values : list ShareRecord -> list ShareRecord) (s : State) :
  reachable env sort_values s -> minute_aligned (df s).
Proof.
  induction 1 as [s Hinit | s symbol _ IH | s symbols _ IH | s _ IH | s _ IH].
  - unfold minute_aligned. rewrite Hinit. constructor.
  - destruct (add_price_record_appends env symbol s) as (a & Hdf & Hal).
    unfold minute_aligned. rewrite Hdf. apply Forall_app. now split.
  - unfold add_multiple_prices.
    destruct (add_prices_loop_appends env
                (match symbols with
                 | Some l => l
                 | None => dict_keys COIN_MAPPINGS
                 end) 0 s) as (a & Hdf & Hal).
    unfold minute_aligned. rewrite Hdf. apply Forall_app. now split.
  - rewrite save_to_db_df. exact IH.
  - rewrite preserves_df_update_nav. exact IH.
Qed.

Lemma price_table_minute_aligned_witness :
  minute_aligned
    (df (snd (update_nav always_quoting stable_sort_desc
           (snd (save_to_db always_quoting
              (snd (add_multiple_prices always_quoting None fresh_state))))))).
Proof.
  apply (price_table_minute_aligned always_quoting stable_sort_desc).
  apply reach_update_nav, reach_save_to_db, reach_add_multiple_prices, reach_init.
  reflexivity.
Defined.

(** ** One failed fetch among several *)

Lemma configured_dict_get (symbol : string) :
  configured symbol -> dict_get COIN_MAPPINGS symbol = Some (canonical symbol).
Proof.
  unfold configured, dict_contains, canonical.
  destruct (dict_get COIN_MAPPINGS symbol); [reflexivity | discriminate].
Qed.

(** Distinct trading symbols have distinct canonical names. *)
Lemma canonical_inj (a b : string) :
  configured a -> configured b -> canonical a = canonical b -> a = b.
Proof.
  unfold configured, dict_contains, canonical, COIN_MAPPINGS. cbn [dict_get].
  intros Ha Hb Hc.
  repeat match goal with
         | H : context [String.eqb ?x ?y] |- _ =>
             destruct (String.eqb_spec x y)
         end;
    subst; try discriminate; reflexivity.
Qed.

Lemma nth_not_in_rest {A : Type} (l : list A) (i : nat) (d : A) :
  NoDup l -> i < List.length l ->
  ~ In (nth i l d) (firstn i l ++ skipn (S i) l).
Proof.
  revert i. induction l as [|a l IH]; intros i Hnd Hi; [simpl in Hi; lia|].
  inversion Hnd as [|? ? Hnotin Hnd']; subst.
  destruct i as [|i]; simpl.
  - exact Hnotin.
  - simpl in Hi. intros [Heq | Hin].
    + apply Hnotin. rewrite Heq. apply nth_In. lia.
    + apply (IH i Hnd'); [lia | exact Hin].
Qed.

Lemma in_without {A : Type} (l : list A) (i : nat) (x : A) :
  In x (firstn i l ++ skipn (S i) l) -> In x l.
Proof.
  revert i. induction l as [|a l IH]; intros i Hin.
  - destruct i; simpl in Hin; contradiction.
  - destruct i as [|i]; simpl in Hin.
    + now right.
    + destruct Hin as [->|Hin]; [now left | right; now apply (IH i)].
Qed.

Lemma length_without {A : Type} (l : list A) (i : nat) :
  i < List.length l ->
  List.length (firstn i l ++ skipn (S i) l) = List.length l - 1.
Proof.
  intros Hi. rewrite length_app, length_firstn, length_skipn. lia.
Qed.

Section Fetching.

Variable env : Env.

Lemma add_prices_loop_all_succeed (symbols : list string) :
  forall (count : nat) (s : State),
    Forall configured symbols ->
    (forall j, j < List.length symbols ->
               is_failure (answer env s symbols j) = false) ->
    exists appended s',
      add_prices_loop env symbols count s
      = (Ok (count + List.length symbols), s')
      /\ df s' = df s ++ appended
      /\ map p_pm appended = map canonical symbols
      /\ api_calls s' = api_calls s ++ symbols
      /\ log s' = log s.
Proof.
  induction symbols as [|symbol rest IH]; intros count s Hconf Hans.
  - exists [], s. simpl. rewrite !app_nil_r, Nat.add_0_r. repeat split.
  - inversion Hconf as [|? ? Hc Hrest]; subst.
    pose proof (add_price_record_run env symbol s) as Hrun.
    rewrite (configured_dict_get symbol Hc) in Hrun.
    pose proof (Hans 0 ltac:(simpl; lia)) as H0.
    unfold answer in H0. rewrite Nat.add_0_r in H0. simpl in H0.
    destruct (ticker_price env (List.length (api_calls s)) symbol)
      as [price|e]; [|discriminate].
    set (s1 := set_df _ _) in Hrun.
    destruct (IH (S count) s1 Hrest) as (a & s' & Hloop & Hdf & Hpm & Hapi & Hlog).
    { intros j Hj. specialize (Hans (S j) ltac:(simpl; lia)).
      unfold answer in *. simpl in *. rewrite length_app. simpl.
      now replace (List.length (api_calls s) + 1 + j)
        with (List.length (api_calls s) + S j) by lia. }
    eexists (_ :: a), s'.
    cbn [add_prices_loop]. unfold bind. rewrite Hrun, Hloop.
    split; [f_equal; f_equal; simpl; lia|].
    rewrite Hdf, Hapi, Hlog. subst s1. simpl.
    rewrite <- !app_assoc. simpl. rewrite Hpm. repeat split.
Qed.

Lemma add_prices_loop_one_failure (symbols : list string) :
  forall (count : nat) (s : State) (i : nat),
    Forall configured symbols ->
    i < List.length symbols ->
    (forall j, j < List.length symbols ->
               (is_failure (answer env s symbols j) = true <-> j = i)) ->
    exists appended s',
      add_prices_loop env symbols count s
      = (Ok (count + (List.length symbols - 1)), s')
      /\ df s' = df s ++ appended
      /\ map p_pm appended
         = map canonical (firstn i symbols ++ skipn (S i) symbols)
      /\ api_calls s' = api_calls s ++ symbols
      /\ log s' = log s ++
           [("Error fetching ticker price for " ++ nth i symbols "")%string].
Proof.
  induction symbols as [|symbol rest IH]; intros count s i Hconf Hi Hans;
    [simpl in Hi; lia|].
  inversion Hconf as [|? ? Hc Hrest]; subst.
  pose proof (add_price_record_run env symbol s) as Hrun.
  rewrite (configured_dict_get symbol Hc) in Hrun.
  pose proof (Hans 0 ltac:(simpl; lia)) as H0.
  unfold answer in H0. rewrite Nat.add_0_r in H0. simpl in H0.
  assert (Hshift : forall s1 j,
             List.length (api_calls s1) = List.length (api_calls s) + 1 ->
             answer env s1 rest j = answer env s (symbol :: rest) (S j)).
  { intros s1 j Hlen. unfold answer. rewrite Hlen. simpl.
    now replace (List.length (api_calls s) + 1 + j)
      with (List.length (api_calls s) + S j) by lia. }
  destruct i as [|i].
  - (* the head fails, the rest succeeds *)
    destruct (ticker_price env (List.length (api_calls s)) symbol)
      as [price|e].
    { simpl in H0. destruct H0 as [_ H0]. discriminate (H0 eq_refl). }
    set (s1 := add_log _ _) in Hrun.
    destruct (add_prices_loop_all_succeed rest count s1 Hrest)
      as (a & s' & Hloop & Hdf & Hpm & Hapi & Hlog).
    { intros j Hj. rewrite (Hshift s1 j).
      - specialize (Hans (S j) ltac:(simpl; lia)).
        destruct (is_failure (answer env s (symbol :: rest) (S j)));
          [|reflexivity].
        destruct Hans as [Hans _]. discriminate (Hans eq_refl).
      - subst s1. simpl. rewrite length_app. reflexivity. }
    exists a, s'.
    cbn [add_prices_loop]. unfold bind. rewrite Hrun, Hloop.
    split; [f_equal; f_equal; simpl; lia|].
    rewrite Hdf, Hapi, Hlog. subst s1. simpl.
    rewrite <- !app_assoc. repeat split. exact Hpm.
  - (* the head succeeds, the failure is further on *)
    destruct (ticker_price env (List.length (api_calls s)) symbol)
      as [price|e].
    2:{ simpl in H0. destruct H0 as [H0 _]. discriminate (H0 eq_refl). }
    set (s1 := set_df _ _) in Hrun.
    simpl in Hi.
    destruct (IH (S count) s1 i Hrest ltac:(lia))
      as (a & s' & Hloop & Hdf & Hpm & Hapi & Hlog).
    { intros j Hj. rewrite (Hshift s1 j).
      - specialize (Hans (S j) ltac:(simpl; lia)).
        rewrite Hans. split; intros; lia.
      - subst s1. simpl. rewrite length_app. reflexivity. }
    eexists (_ :: a), s'.
    cbn [add_prices_loop]. unfold bind. rewrite Hrun, Hloop.
    split; [f_equal; f_equal; simpl; lia|].
    rewrite Hdf, Hapi, Hlog. subst s1. simpl.
    rewrite <- !app_assoc. simpl. rewrite Hpm. repeat split.
Qed.

End Fetching.

(** C9. When every symbol of the list is configured and exactly one fetch,
    that of the [i]-th symbol, fails, [add_multiple_prices] returns
    normally with the count N-1; it appends N-1 records, one per symbol
    other than the [i]-th and in the order of the list, each on a whole
    minute; all N symbols were asked of the exchange; the failure is
    logged; and, the symbols being distinct, the failed asset has no record
    in the table unless it had one before the step. *)
Theorem one_failed_fetch_skips_one_asset
    (env : Env) (arg : option (list string)) (s : State) (i : nat) :
  Forall configured (symbols_of arg) ->
  i < List.length (symbols_of arg) ->
  (forall j, j < List.length (symbols_of arg) ->
             (is_failure (answer env s (symbols_of arg) j) = true <-> j = i)) ->
  exists appended s',
    add_multiple_prices env arg s
    = (Ok (List.length (symbols_of arg) - 1), s')
    /\ df s' = df s ++ appended
    /\ List.length appended = List.length (symbols_of arg) - 1
    /\ map p_pm appended
       = map canonical (firstn i (symbols_of arg) ++ skipn (S i) (symbols_of arg))
    /\ minute_aligned appended
    /\ api_calls s' = api_calls s ++ symbols_of arg
    /\ log s' = log s ++
         [("Error fetching ticker price for " ++ nth i (symbols_of arg) "")%string]
    /\ (NoDup (symbols_of arg) ->
        (forall r, In r (df s) -> p_pm r <> canonical (nth i (symbols_of arg) "")) ->
        forall r, In r (df s') -> p_pm r <> canonical (nth i (symbols_of arg) "")).
Proof.
  intros Hconf Hi Hans.
  destruct (add_prices_loop_one_failure env (symbols_of arg) 0 s i Hconf Hi Hans)
    as (appended & s' & Hloop & Hdf & Hpm & Hapi & Hlog).
  exists appended, s'.
  split; [exact Hloop|]. split; [exact Hdf|].
  split.
  { rewrite <- (length_map p_pm), Hpm, length_map. now apply length_without. }
  split; [exact Hpm|].
  split.
  { destruct (add_prices_loop_appends env (symbols_of arg) 0 s) as (a & Ha & Hal).
    rewrite Hloop in Ha. simpl in Ha. rewrite Hdf in Ha.
    apply app_inv_head in Ha. now subst a. }
  split; [exact Hapi|]. split; [exact Hlog|].
  intros Hnd Hbefore r Hin Heq.
  rewrite Hdf in Hin. apply in_app_or in Hin. destruct Hin as [Hin|Hin].
  - exact (Hbefore r Hin Heq).
  - assert (Hpmin : In (canonical (nth i (symbols_of arg) ""))
                       (map p_pm appended)).
    { rewrite <- Heq. now apply in_map. }
    rewrite Hpm in Hpmin. apply in_map_iff in Hpmin.
    destruct Hpmin as (x & Hx & Hxin).
    assert (Hxconf : configured x).
    { rewrite Forall_forall in Hconf. apply Hconf.
      eapply in_without; eassumption. }
    assert (Hiconf : configured (nth i (symbols_of arg) "")).
    { rewrite Forall_forall in Hconf. apply Hconf. now apply nth_In. }
    apply (canonical_inj _ _ Hxconf Hiconf) in Hx. subst x.
    exact (nth_not_in_rest _ i "" Hnd Hi Hxin).
Qed.

Lemma one_failed_fetch_skips_one_asset_witness :
  exists appended s',
    add_multiple_prices second_call_fails None fresh_state = (Ok 2, s')
    /\ df s' = appended
    /\ List.length appended = 2
    /\ map p_pm appended = ["benchmark_btc"; "benchmark_sol"]
    /\ minute_aligned appended
    /\ api_calls s' = ["BTCUSDT"; "ETHUSDT"; "SOLUSDT"]
    /\ log s' = ["Error fetching ticker price for ETHUSDT"]
    /\ (NoDup ["BTCUSDT"; "ETHUSDT"; "SOLUSDT"] ->
        (forall r, In r (@nil PriceRecord) -> p_pm r <> "benchmark_eth") ->
        forall r, In r (df s') -> p_pm r <> "benchmark_eth").
Proof.
  apply (one_failed_fetch_skips_one_asset second_call_fails None fresh_state 1).
  - repeat constructor.
  - simpl. lia.
  - intros j Hj. simpl in Hj.
    destruct j as [|[|[|j]]]; simpl; split; intros; try discriminate; try lia;
      reflexivity.
Defined.

(** ** The latest-shares projection *)

Lemma ts_leb_refl (a : Timestamp) : ts_leb a a = true.
Proof. destruct a; simpl; [apply Z.leb_refl | reflexivity]. Qed.

Lemma ts_leb_antisym (a b : Timestamp) :
  ts_leb a b = true -> ts_leb b a = true -> a = b.
Proof.
  destruct a as [x|], b as [y|]; simpl; intros Hab Hba;
    try discriminate; try reflexivity.
  apply Z.leb_le in Hab, Hba. f_equal. lia.
Qed.

Lemma ts_leb_trans (a b c : Timestamp) :
  ts_leb a b = true -> ts_leb b c = true -> ts_leb a c = true.
Proof.
  destruct a as [x|], b as [y|], c as [z|]; simpl; intros Hab Hbc;
    try discriminate; try reflexivity.
  apply Z.leb_le in Hab, Hbc. apply Z.leb_le. lia.
Qed.

Lemma ts_leb_total (a b : Timestamp) :
  ts_leb a b = false -> ts_leb b a = true.
Proof.
  destruct a as [x|], b as [y|]; simpl; intros Hab;
    try discriminate; try reflexivity.
  apply Z.leb_gt in Hab. apply Z.leb_le. lia.
Qed.

Lemma existsb_eqb_in (a : string) (seen : list string) :
  existsb (String.eqb a) seen = true <-> In a seen.
Proof.
  rewrite existsb_exists. split.
  - intros (x & Hx & Heq). apply String.eqb_eq in Heq. now subst.
  - intros Hin. exists a. split; [exact Hin | apply String.eqb_refl].
Qed.

Lemma drop_duplicates_from_seen (asset : string) (l : list ShareRecord) :
  forall seen,
    In asset seen ->
    filter (of_asset asset) (drop_duplicates_from seen l) = [].
Proof.
  induction l as [|r rest IH]; intros seen Hseen; [reflexivity|].
  simpl. destruct (existsb (String.eqb (s_pm r)) seen) eqn:Hr.
  - now apply IH.
  - simpl. destruct (of_asset asset r) eqn:Ha.
    + exfalso. apply String.eqb_eq in Ha. subst asset.
      apply existsb_eqb_in in Hseen. congruence.
    + apply IH. now right.
Qed.

(** Of each asset not seen before, [drop_duplicates] keeps the first row
    and no other. *)
Lemma drop_duplicates_from_first (asset : string) (l : list ShareRecord) :
  forall seen,
    ~ In asset seen ->
    filter (of_asset asset) (drop_duplicates_from seen l)
    = match find (of_asset asset) l with
      | Some r => [r]
      | None => []
      end.
Proof.
  induction l as [|r rest IH]; intros seen Hseen; [reflexivity|].
  simpl. destruct (existsb (String.eqb (s_pm r)) seen) eqn:Hr.
  - apply existsb_eqb_in in Hr. destruct (of_asset asset r) eqn:Ha.
    + exfalso. apply String.eqb_eq in Ha. subst asset. exact (Hseen Hr).
    + now apply IH.
  - simpl. destruct (of_asset asset r) eqn:Ha.
    + f_equal. apply drop_duplicates_from_seen. left.
      now apply String.eqb_eq in Ha.
    + apply IH. apply String.eqb_neq in Ha.
      intros [Heq|Hin]; [exact (Ha Heq) | exact (Hseen Hin)].
Qed.

Lemma drop_duplicates_from_incl (l : list ShareRecord) :
  forall seen r, In r (drop_duplicates_from seen l) -> In r l.
Proof.
  induction l as [|x rest IH]; intros seen r Hin; [contradiction|].
  simpl in Hin. destruct (existsb (String.eqb (s_pm x)) seen).
  - right. eapply IH; eassumption.
  - destruct Hin as [->|Hin]; [now left | right; eapply IH; eassumption].
Qed.

Lemma drop_duplicates_from_fresh (l : list ShareRecord) :
  forall seen r, In r (drop_duplicates_from seen l) -> ~ In (s_pm r) seen.
Proof.
  induction l as [|x rest IH]; intros seen r Hin; [contradiction|].
  simpl in Hin. destruct (existsb (String.eqb (s_pm x)) seen) eqn:Hx.
  - eapply IH; eassumption.
  - destruct Hin as [->|Hin].
    + intros Hseen. apply existsb_eqb_in in Hseen. congruence.
    + intros Hseen. apply (IH _ _ Hin). now right.
Qed.

Lemma drop_duplicates_from_NoDup (l : list ShareRecord) :
  forall seen, NoDup (map s_pm (drop_duplicates_from seen l)).
Proof.
  induction l as [|x rest IH]; intros seen; [constructor|].
  simpl. destruct (existsb (String.eqb (s_pm x)) seen); [apply IH|].
  simpl. constructor; [|apply IH].
  intros Hin. apply in_map_iff in Hin. destruct Hin as (r & Hpm & Hin).
  apply drop_duplicates_from_fresh in Hin. apply Hin. left. now rewrite Hpm.
Qed.

(** In a list sorted newest first, the first row of an asset is at least as
    new as every row of that asset. *)
Lemma find_first_newest (asset : string) (l : list ShareRecord) (r : ShareRecord) :
  newest_first l ->
  find (of_asset asset) l = Some r ->
  forall r', In r' l -> of_asset asset r' = true ->
             ts_leb (s_timestamp r') (s_timestamp r) = true.
Proof.
  unfold newest_first. induction 1 as [|x rest Hsorted IH Hall]; intros Hfind r' Hin Hr';
    [discriminate|].
  simpl in Hfind. destruct (of_asset asset x) eqn:Hx.
  - injection Hfind as ->. destruct Hin as [->|Hin]; [apply ts_leb_refl|].
    rewrite Forall_forall in Hall. now apply Hall.
  - destruct Hin as [->|Hin]; [congruence|]. now apply IH.
Qed.

(** The stable sort is a sort. *)
Lemma insert_desc_perm (r : ShareRecord) (l : list ShareRecord) :
  Permutation (insert_desc r l) (r :: l).
Proof.
  induction l as [|h t IH]; simpl; [apply Permutation_refl|].
  destruct (ts_ltb (s_timestamp r) (s_timestamp h)).
  - eapply Permutation_trans; [apply perm_skip, IH | apply perm_swap].
  - apply Permutation_refl.
Qed.

Lemma stable_sort_desc_perm (l : list ShareRecord) :
  Permutation (stable_sort_desc l) l.
Proof.
  induction l as [|r rest IH]; simpl; [constructor|].
  eapply Permutation_trans; [apply insert_desc_perm | now apply perm_skip].
Qed.

Lemma insert_desc_sorted (r : ShareRecord) (l : list ShareRecord) :
  newest_first l -> newest_first (insert_desc r l).
Proof.
  unfold newest_first. induction 1 as [|h t Hsorted IH Hall]; simpl.
  - repeat constructor.
  - unfold ts_ltb. destruct (ts_leb (s_timestamp h) (s_timestamp r)) eqn:Hle; simpl.
    + constructor; [now constructor|]. constructor; [exact Hle|].
      rewrite Forall_forall in *. intros x Hx.
      eapply ts_leb_trans; [apply Hall, Hx | exact Hle].
    + constructor; [exact IH|].
      rewrite Forall_forall in *. intros x Hx.
      apply (Permutation_in _ (insert_desc_perm r t)) in Hx.
      destruct Hx as [<-|Hx]; [now apply ts_leb_total | now apply Hall].
Qed.

Lemma stable_sort_desc_sorted (l : list ShareRecord) :
  newest_first (stable_sort_desc l).
Proof.
  induction l as [|r rest IH]; simpl; [constructor|].
  now apply insert_desc_sorted.
Qed.

(** C4. Whatever sort pandas runs, as long as its result is a permutation
    of the shares rows ordered newest first ([NaT] last, counted below
    every timestamp): for every asset present in the shares table the
    projection of line 212 keeps exactly one row of that asset; it is a
    row of the table; no row of the asset is newer; and when one row alone
    attains the asset's maximum timestamp, it is that row.  Which of
    several rows with the same maximal timestamp is kept depends on the
    sort. *)
Theorem latest_shares_keeps_newest_row
    (sort_values : list ShareRecord -> list ShareRecord)
    (shares : list ShareRecord) (asset : string) :
  Permutation (sort_values shares) shares ->
  newest_first (sort_values shares) ->
  In asset (map s_pm shares) ->
  exists r,
    filter (of_asset asset) (latest_shares_of sort_values shares) = [r]
    /\ In r shares
    /\ s_pm r = asset
    /\ (forall r', In r' shares -> s_pm r' = asset ->
                   ts_leb (s_timestamp r') (s_timestamp r) = true)
    /\ (forall r', In r' shares -> s_pm r' = asset ->
          (forall r'', In r'' shares -> s_pm r'' = asset ->
                       ts_leb (s_timestamp r'') (s_timestamp r') = true) ->
          (forall r'', In r'' shares -> s_pm r'' = asset ->
                       s_timestamp r'' = s_timestamp r' -> r'' = r') ->
          r = r').
Proof.
  intros Hperm Hsorted Hasset.
  unfold latest_shares_of, drop_duplicates.
  rewrite (drop_duplicates_from_first asset (sort_values shares) []
             (fun H => H)).
  apply in_map_iff in Hasset. destruct Hasset as (r0 & Hr0pm & Hr0in).
  destruct (find (of_asset asset) (sort_values shares)) as [r|] eqn:Hfind.
  - destruct (find_some _ _ Hfind) as [Hrin Hrpm].
    apply String.eqb_eq in Hrpm.
    assert (Hmax : forall r', In r' shares -> s_pm r' = asset ->
                     ts_leb (s_timestamp r') (s_timestamp r) = true).
    { intros r' Hin Hpm.
      apply (find_first_newest asset (sort_values shares) r Hsorted Hfind).
      - apply (Permutation_in _ (Permutation_sym Hperm) Hin).
      - now apply String.eqb_eq. }
    exists r. split; [reflexivity|].
    split; [exact (Permutation_in _ Hperm Hrin)|].
    split; [exact Hrpm|]. split; [exact Hmax|].
    intros r' Hin' Hpm' Hmax' Huniq.
    apply Huniq; [exact (Permutation_in _ Hperm Hrin) | exact Hrpm |].
    apply ts_leb_antisym.
    + apply Hmax'; [exact (Permutation_in _ Hperm Hrin) | exact Hrpm].
    + now apply Hmax.
  - exfalso.
    pose proof (find_none _ _ Hfind r0
                  (Permutation_in _ (Permutation_sym Hperm) Hr0in)) as Hnone.
    unfold of_asset in Hnone. rewrite Hr0pm, String.eqb_refl in Hnone.
    discriminate.
Qed.

Lemma latest_shares_keeps_newest_row_witness :
  exists r,
    filter (of_asset "x") (latest_shares_of stable_sort_desc shares_x) = [r]
    /\ In r shares_x
    /\ s_pm r = "x"
    /\ (forall r', In r' shares_x -> s_pm r' = "x" ->
                   ts_leb (s_timestamp r') (s_timestamp r) = true)
    /\ (forall r', In r' shares_x -> s_pm r' = "x" ->
          (forall r'', In r'' shares_x -> s_pm r'' = "x" ->
                       ts_leb (s_timestamp r'') (s_timestamp r') = true) ->
          (forall r'', In r'' shares_x -> s_pm r'' = "x" ->
                       s_timestamp r'' = s_timestamp r' -> r'' = r') ->
          r = r').
Proof.
  apply (latest_shares_keeps_newest_row stable_sort_desc shares_x "x").
  - apply perm_swap.
  - repeat constructor.
  - simpl. now left.
Defined.

(** On that table the projection is the single row with 50 shares. *)
Lemma latest_shares_x :
  latest_shares_of stable_sort_desc shares_x
  = [mkShare (Some 2000%Z) "x" (Some (50 # 1)%Q)].
Proof. reflexivity. Qed.

(** ** The NAV computation *)

Lemma nav_record_of_spec (latest : list ShareRecord) (p : PriceRecord) :
  nav_row_of latest p (nav_record_of latest p).
Proof.
  unfold nav_row_of, nav_record_of, nav_value. simpl.
  repeat split.
  destruct (joined_shares latest (p_pm p)) as [sh|]; [|reflexivity].
  destruct (Qeq_bool sh 0); reflexivity.
Qed.

Lemma filter_of_asset_NoDup (asset : string) (l : list ShareRecord) :
  NoDup (map s_pm l) ->
  filter (of_asset asset) l
  = match find (of_asset asset) l with
    | Some r => [r]
    | None => []
    end.
Proof.
  induction l as [|x rest IH]; intros Hnd; [reflexivity|].
  simpl in Hnd. inversion Hnd as [|? ? Hnotin Hnd']; subst.
  simpl. destruct (of_asset asset x) eqn:Hx.
  - f_equal. apply filter_none. intros y Hy.
    destruct (of_asset asset y) eqn:Hyb; [|reflexivity].
    exfalso. apply Hnotin. apply String.eqb_eq in Hx, Hyb.
    rewrite Hx, <- Hyb. now apply in_map.
  - now apply IH.
Qed.

(** With one row per asset on the right, the left merge is a map. *)
Lemma merge_one_row_per_asset (table : list PriceRecord) (latest : list ShareRecord) :
  NoDup (map s_pm latest) ->
  merge table latest
  = map (fun p => mkMerged (p_timestamp p) (p_pm p) (p_balance p)
                           (joined_shares latest (p_pm p)))
        table.
Proof.
  intros Hnd. unfold merge.
  match goal with |- flat_map ?f0 _ = map ?g0 _ => set (f := f0); set (g := g0) end.
  induction table as [|p rest IH]; [reflexivity|].
  change (f p ++ flat_map f rest = g p :: map g rest).
  rewrite IH. subst f g. cbv beta.
  change (fun r : ShareRecord => String.eqb (s_pm r) (p_pm p))
    with (of_asset (p_pm p)).
  rewrite (filter_of_asset_NoDup _ _ Hnd). unfold joined_shares.
  destruct (find (of_asset (p_pm p)) latest); reflexivity.
Qed.

(** The lambda never divides by zero. *)
Lemma nav_lambda_ok (row : MergedRecord) :
  nav_lambda row = Ok (nav_value (m_balance row) (m_shares row)).
Proof.
  unfold nav_lambda, nav_value, truediv.
  destruct (m_shares row) as [sh|]; [|reflexivity].
  destruct (Qeq_bool sh 0); reflexivity.
Qed.

Lemma apply_nav_merge (table : list PriceRecord) (latest : list ShareRecord) :
  NoDup (map s_pm latest) ->
  apply_nav (merge table latest) = Ok (map (nav_record_of latest) table).
Proof.
  intros Hnd. rewrite (merge_one_row_per_asset _ _ Hnd).
  induction table as [|p rest IH]; [reflexivity|].
  simpl. rewrite nav_lambda_ok, IH. reflexivity.
Qed.

Lemma latest_shares_of_NoDup
    (sort_values : list ShareRecord -> list ShareRecord) (shares : list ShareRecord) :
  NoDup (map s_pm (latest_shares_of sort_values shares)).
Proof. apply drop_duplicates_from_NoDup. Qed.

Lemma Forall2_map_r {A B : Type} (P : A -> B -> Prop) (f : A -> B) (l : list A) :
  (forall a, P a (f a)) -> Forall2 P l (map f l).
Proof.
  intros H. induction l; simpl; constructor; auto.
Qed.

(** C1. For any price table and any shares table (and any sort), the NAV
    computation of lines 214-218 raises nothing and returns one output row
    per price row, in the same order: the row keeps timestamp, asset and
    price, its [shares] cell is that of the latest-shares row of the same
    asset or [NaN] when the asset has none, and its [nav] is 0 when that
    cell is [NaN] or zero and price / shares otherwise. *)
Theorem nav_left_join_zero_fallback
    (sort_values : list ShareRecord -> list ShareRecord)
    (table : list PriceRecord) (shares : list ShareRecord) :
  exists out,
    apply_nav (merge table (latest_shares_of sort_values shares)) = Ok out
    /\ List.length out = List.length table
    /\ Forall2 (nav_row_of (latest_shares_of sort_values shares)) table out.
Proof.
  exists (map (nav_record_of (latest_shares_of sort_values shares)) table).
  split; [apply apply_nav_merge, latest_shares_of_NoDup|].
  split; [apply length_map|].
  apply Forall2_map_r, nav_record_of_spec.
Qed.

(** The spec's examples: 100 over the latest share count 50; an asset
    without shares; an asset whose latest share count is 0. *)
Lemma nav_examples (t : datetime) :
  apply_nav (merge [rec3 t "x" (100 # 1); rec3 t "y" (7 # 1)]
                   (latest_shares_of stable_sort_desc shares_x))
  = Ok [mkNav t "x" (100 # 1) (Some (50 # 1)%Q) (100 # 50);
        mkNav t "y" (7 # 1) None 0]
  /\ (100 # 50 == 2)%Q
  /\ apply_nav (merge [rec3 t "x" (100 # 1)]
                      (latest_shares_of stable_sort_desc
                         [mkShare (Some 5%Z) "x" (Some (0 # 1)%Q);
                          mkShare (Some 3%Z) "x" (Some (50 # 1)%Q)]))
     = Ok [mkNav t "x" (100 # 1) (Some (0 # 1)%Q) 0].
Proof.
  split; [reflexivity|]. split; reflexivity.
Qed.

(** ** The NAV step against the store *)

Lemma bind_ok {A B : Type} (m : M A) (f : A -> M B) (s s' : State) (a : A) :
  m s = (Ok a, s') -> bind m f s = f a s'.
Proof. intros H. unfold bind. now rewrite H. Qed.

Lemma bind_raise {A B : Type} (m : M A) (f : A -> M B) (s s' : State) (e : exn) :
  m s = (Raise e, s') -> bind m f s = (Raise e, s').
Proof. intros H. unfold bind. now rewrite H. Qed.

Lemma get_db_table_ok (env : Env) (query : string) (s : State)
    (frame : DataFrame ShareRecord) :
  read_sql env (List.length (db_calls s)) query = Ok frame ->
  get_db_table env query s = (Ok frame, add_db_call (ReadSql query) s).
Proof.
  intros H. unfold get_db_table, try_except, bind, pd_read_sql.
  now rewrite H.
Qed.

Lemma get_db_table_failed (env : Env) (query : string) (s : State) (e : exn) :
  read_sql env (List.length (db_calls s)) query = Raise e ->
  get_db_table env query s
  = (Ok empty_frame,
     add_log ("Error encountered getting sql table with this query " ++ query)
             (add_db_call (ReadSql query) s)).
Proof.
  intros H. unfold get_db_table, try_except, bind, pd_read_sql.
  now rewrite H.
Qed.

Lemma getitem_column_ok {R : Type} (frame : DataFrame R) (col : string) (s : State) :
  In col (columns frame) -> getitem_column frame col s = (Ok tt, s).
Proof.
  intros H. unfold getitem_column.
  now rewrite (proj2 (existsb_eqb_in col (columns frame)) H).
Qed.

Lemma df_to_table_appended {R : Type} `{ToSql R} (env : Env)
    (table_name : string) (d : list R) (s : State) :
  d <> [] ->
  to_sql_raises env (List.length (db_calls s)) = None ->
  df_to_table env table_name d s
  = (Ok tt,
     set_table table_name (store s table_name ++ map to_sql_row d)
       (add_db_call (ToSqlCall table_name Append (map to_sql_row d)) s)).
Proof.
  intros Hne Hok. destruct d as [|x d]; [contradiction|].
  unfold df_to_table. cbn [frame_empty].
  unfold bind, try_except, to_sql. now rewrite Hok.
Qed.

Lemma update_nav_body_after_read
    (env : Env) (sort_values : list ShareRecord -> list ShareRecord)
    (s : State) (frame : DataFrame ShareRecord) :
  read_sql env (List.length (db_calls s)) shares_query = Ok frame ->
  In "timestamp" (columns frame) ->
  In "pm" (columns frame) ->
  In "shares" (columns frame) ->
  update_nav_body env sort_values s
  = bind (df_to_table env "nav_table"
            (map (nav_record_of (latest_shares_of sort_values (rows frame))) (df s)))
         (fun _ =>
            ret (map (nav_record_of (latest_shares_of sort_values (rows frame)))
                     (df s)))
         (add_db_call (ReadSql shares_query) s).
Proof.
  intros Hread Hts Hpm Hsh. unfold update_nav_body.
  erewrite bind_ok by (apply get_db_table_ok; exact Hread).
  erewrite bind_ok by (apply getitem_column_ok; exact Hts).
  erewrite bind_ok by (apply getitem_column_ok; exact Hpm).
  erewrite bind_ok by (apply getitem_column_ok; exact Hsh).
  erewrite bind_ok by reflexivity.
  cbn [df add_db_call].
  rewrite (apply_nav_merge _ _ (latest_shares_of_NoDup sort_values (rows frame))).
  erewrite bind_ok by reflexivity.
  reflexivity.
Qed.

(** C2, as the code has it.  When the shares read works and has the three
    columns, the price table has a row and the write does not fail,
    [update_nav] sends one write, an append to [nav_table]: afterwards the
    table holds what it held before followed by this cycle's NAV rows;
    no other table changes, and no replace-all write is issued. *)
Theorem update_nav_appends_to_nav_table
    (env : Env) (sort_values : list ShareRecord -> list ShareRecord)
    (s : State) (frame : DataFrame ShareRecord) :
  read_sql env (List.length (db_calls s)) shares_query = Ok frame ->
  In "timestamp" (columns frame) ->
  In "pm" (columns frame) ->
  In "shares" (columns frame) ->
  df s <> [] ->
  to_sql_raises env (S (List.length (db_calls s))) = None ->
  exists out s',
    update_nav env sort_values s = (Ok tt, s')
    /\ Forall2 (nav_row_of (latest_shares_of sort_values (rows frame))) (df s) out
    /\ store s' "nav_table" = store s "nav_table" ++ map to_sql_row out
    /\ (forall t, t <> "nav_table" -> store s' t = store s t)
    /\ db_calls s' = db_calls s ++
         [ReadSql shares_query; ToSqlCall "nav_table" Append (map to_sql_row out)]
    /\ df s' = df s
    /\ log s' = log s.
Proof.
  intros Hread Hts Hpm Hsh Hne Hok.
  set (out := map (nav_record_of (latest_shares_of sort_values (rows frame))) (df s)).
  assert (Hout : out <> []).
  { subst out. destruct (df s); [contradiction | discriminate]. }
  eexists out, _. split.
  - unfold update_nav, try_except.
    erewrite bind_ok.
    2:{ rewrite (update_nav_body_after_read env sort_values s frame Hread Hts Hpm Hsh).
        fold out. erewrite bind_ok; [reflexivity|].
        apply df_to_table_appended; [exact Hout|].
        cbn [db_calls add_db_call]. rewrite length_app, Nat.add_1_r. exact Hok. }
    reflexivity.
  - split; [apply Forall2_map_r, nav_record_of_spec|].
    cbn [store set_table add_db_call db_calls df log].
    split; [reflexivity|].
    split.
    { intros t Ht. apply String.eqb_neq in Ht. now rewrite Ht. }
    rewrite <- app_assoc. repeat split.
Qed.

Lemma update_nav_appends_to_nav_table_witness :
  exists out s',
    update_nav always_quoting stable_sort_desc state_before_nav = (Ok tt, s')
    /\ Forall2 (nav_row_of (latest_shares_of stable_sort_desc [])) [price_x] out
    /\ store s' "nav_table" = [one_nav_row] ++ map to_sql_row out
    /\ (forall t, t <> "nav_table" -> store s' t = store state_before_nav t)
    /\ db_calls s' = [] ++
         [ReadSql shares_query; ToSqlCall "nav_table" Append (map to_sql_row out)]
    /\ df s' = [price_x]
    /\ log s' = [].
Proof.
  apply (update_nav_appends_to_nav_table always_quoting stable_sort_desc
           state_before_nav (mkFrame ["timestamp"; "pm"; "shares"] [])).
  - reflexivity.
  - simpl. auto.
  - simpl. auto.
  - simpl. auto.
  - discriminate.
  - reflexivity.
Defined.

(** C2, as stated, fails: after a successful NAV write the table is not
    the current record set alone, the earlier row is still there. *)
Lemma nav_table_is_not_replaced :
  ~ (forall (env : Env) (sort_values : list ShareRecord -> list ShareRecord)
            (s : State) (frame : DataFrame ShareRecord) (out : list NavRecord),
        read_sql env (List.length (db_calls s)) shares_query = Ok frame ->
        In "timestamp" (columns frame) ->
        In "pm" (columns frame) ->
        In "shares" (columns frame) ->
        df s <> [] ->
        to_sql_raises env (S (List.length (db_calls s))) = None ->
        apply_nav (merge (df s) (latest_shares_of sort_values (rows frame))) = Ok out ->
        store (snd (update_nav env sort_values s)) "nav_table"
        = map to_sql_row out).
Proof.
  intros Hclaim.
  specialize (Hclaim always_quoting stable_sort_desc state_before_nav
                (mkFrame ["timestamp"; "pm"; "shares"] [])
                [mkNav (mkDatetime 2025 1 2 3 4 0 0) "benchmark_btc" (100 # 1) None 0]).
  assert (H : store (snd (update_nav always_quoting stable_sort_desc state_before_nav))
                "nav_table"
              = map to_sql_row
                  [mkNav (mkDatetime 2025 1 2 3 4 0 0) "benchmark_btc" (100 # 1) None 0]).
  { apply Hclaim; simpl; auto; try reflexivity. discriminate. }
  vm_compute in H. discriminate H.
Qed.

(** C3, as the code has it.  When the shares read fails, [get_db_table]
    hands back the frame without columns; taking its [timestamp] column
    raises [KeyError], the [except] arm of [update_nav] logs it, and the
    step ends normally having computed no NAV row and written nothing:
    the store is as before and the read is the only call it received. *)
Theorem update_nav_read_failure_writes_nothing
    (env : Env) (sort_values : list ShareRecord -> list ShareRecord)
    (s : State) (e : exn) :
  read_sql env (List.length (db_calls s)) shares_query = Raise e ->
  exists s',
    fst (update_nav_body env sort_values s) = Raise (KeyError "timestamp")
    /\ update_nav env sort_values s = (Ok tt, s')
    /\ store s' = store s
    /\ db_calls s' = db_calls s ++ [ReadSql shares_query]
    /\ df s' = df s
    /\ log s' = log s ++ [read_error_line; "Error udpaing nav_table"].
Proof.
  intros Hread.
  assert (Hbody : update_nav_body env sort_values s
                  = (Raise (KeyError "timestamp"),
                     add_log read_error_line (add_db_call (ReadSql shares_query) s))).
  { unfold update_nav_body.
    erewrite bind_ok by exact (get_db_table_failed env _ s e Hread).
    reflexivity. }
  eexists. split; [now rewrite Hbody|]. split.
  - unfold update_nav, try_except.
    erewrite bind_raise by exact Hbody. reflexivity.
  - cbn [store db_calls df log add_log add_db_call].
    rewrite <- app_assoc. repeat split.
Qed.

Lemma update_nav_read_failure_writes_nothing_witness :
  exists s',
    fst (update_nav_body store_down stable_sort_desc state_before_nav)
    = Raise (KeyError "timestamp")
    /\ update_nav store_down stable_sort_desc state_before_nav = (Ok tt, s')
    /\ store s' = store state_before_nav
    /\ db_calls s' = [] ++ [ReadSql shares_query]
    /\ df s' = [price_x]
    /\ log s' = [] ++ [read_error_line; "Error udpaing nav_table"].
Proof.
  apply (update_nav_read_failure_writes_nothing store_down stable_sort_desc
           state_before_nav (DatabaseError "connection refused")).
  reflexivity.
Defined.

(** C3, as stated, fails: with the read failing, the NAV computation does
    not produce a zero NAV row per asset, it produces none. *)
Lemma read_failure_gives_no_nav_rows :
  ~ (forall (env : Env) (sort_values : list ShareRecord -> list ShareRecord)
            (s : State) (e : exn),
        read_sql env (List.length (db_calls s)) shares_query = Raise e ->
        exists out,
          fst (update_nav_body env sort_values s) = Ok out
          /\ List.length out = List.length (df s)
          /\ Forall (fun n => (n_nav n == 0)%Q) out).
Proof.
  intros Hclaim.
  destruct (Hclaim store_down stable_sort_desc state_before_nav
              (DatabaseError "connection refused") eq_refl)
    as (out & Hrun & _).
  vm_compute in Hrun. discriminate Hrun.
Qed.

(** * Further properties *)

(** ** The summary *)

Lemma unique_from_fresh (values : list string) :
  forall seen v, In v (unique_from seen values) -> In v values /\ ~ In v seen.
Proof.
  induction values as [|x rest IH]; intros seen v Hin; [contradiction|].
  simpl in Hin. destruct (existsb (String.eqb x) seen) eqn:Hx.
  - destruct (IH _ _ Hin) as [H1 H2]. split; [now right | exact H2].
  - destruct Hin as [<-|Hin].
    + split; [now left|]. intros Hseen. apply existsb_eqb_in in Hseen. congruence.
    + destruct (IH _ _ Hin) as [H1 H2]. split; [now right|].
      intros Hseen. apply H2. now right.
Qed.

Lemma unique_from_complete (values : list string) :
  forall seen v, In v values -> ~ In v seen -> In v (unique_from seen values).
Proof.
  induction values as [|x rest IH]; intros seen v Hin Hseen; [contradiction|].
  simpl. destruct (existsb (String.eqb x) seen) eqn:Hx.
  - destruct Hin as [->|Hin]; [|now apply IH].
    exfalso. apply Hseen. now apply existsb_eqb_in.
  - destruct (String.eqb_spec x v) as [->|Hne]; [now left|].
    right. destruct Hin as [Heq|Hin]; [contradiction|].
    apply IH; [exact Hin|]. intros [Heq|H]; [exact (Hne Heq) | exact (Hseen H)].
Qed.

Lemma unique_from_NoDup (values : list string) :
  forall seen, NoDup (unique_from seen values).
Proof.
  induction values as [|x rest IH]; intros seen; [constructor|].
  simpl. destruct (existsb (String.eqb x) seen); [apply IH|].
  constructor; [|apply IH].
  intros Hin. apply unique_from_fresh in Hin. apply (proj2 Hin). now left.
Qed.

Lemma iloc_last_nonempty {A : Type} (l : list A) :
  l <> [] -> exists x, iloc_last l = Some x.
Proof.
  induction l as [|a l IH]; intros Hne; [contradiction|].
  destruct l as [|b l]; [now exists a|].
  destruct IH as [x Hx]; [discriminate|]. exists x. exact Hx.
Qed.

(** An asset with a record in the table has a latest price. *)
Lemma get_latest_price_present (table : list PriceRecord) (pm : string) :
  In pm (map p_pm table) -> exists price, get_latest_price table pm = Some price.
Proof.
  intros Hin. apply in_map_iff in Hin. destruct Hin as (r & Hpm & Hr).
  unfold get_latest_price.
  assert (Hne : filter (fun r0 => String.eqb (p_pm r0) pm) table <> []).
  { intros Hnil.
    assert (Hf : In r (filter (fun r0 => String.eqb (p_pm r0) pm) table)).
    { apply filter_In. split; [exact Hr | now apply String.eqb_eq]. }
    rewrite Hnil in Hf. contradiction. }
  destruct (iloc_last_nonempty _ Hne) as [x Hx]. rewrite Hx.
  destruct (filter (fun r0 => String.eqb (p_pm r0) pm) table); [contradiction|].
  now exists (p_balance x).
Qed.

Lemma print_latest_prices_total (table : list PriceRecord) (total : nat)
    (pms : list string) :
  forall printed,
    (forall pm, In pm pms -> In pm (map p_pm table)) ->
    exists lines,
      print_latest_prices table total printed pms = Summary total (printed ++ lines)
      /\ map line_pm lines = pms
      /\ Forall (fun l => get_latest_price table (line_pm l) = Some (line_price l))
                lines.
Proof.
  induction pms as [|pm rest IH]; intros printed Hall.
  - exists []. simpl. rewrite app_nil_r. repeat split. constructor.
  - destruct (get_latest_price_present table pm (Hall pm (or_introl eq_refl)))
      as [price Hprice].
    destruct (IH (printed ++ [mkLine pm price])) as (lines & Hrun & Hpms & Hlines).
    { intros pm' Hin. apply Hall. now right. }
    exists (mkLine pm price :: lines). simpl. rewrite Hprice, Hrun.
    rewrite <- app_assoc. simpl. rewrite Hpms. repeat split.
    constructor; [exact Hprice | exact Hlines].
Qed.

(** X1. [display_summary] never fails on the format of a missing price.
    On an empty table it only reports that there is no data; otherwise it
    prints the number of records and exactly one line per asset of the
    table, in the order in which the assets first appear, each with the
    price of the asset's last appended record. *)
Theorem display_summary_lists_each_asset_once (table : list PriceRecord) :
  (table = [] -> display_summary table = NoDataAvailable)
  /\ (table <> [] ->
      exists lines,
        display_summary table = Summary (List.length table) lines
        /\ map line_pm lines = unique (map p_pm table)
        /\ NoDup (map line_pm lines)
        /\ (forall pm, In pm (map line_pm lines) <-> In pm (map p_pm table))
        /\ Forall (fun l => get_latest_price table (line_pm l) = Some (line_price l))
                  lines).
Proof.
  split.
  - intros ->. reflexivity.
  - intros Hne. unfold display_summary.
    destruct table as [|r rest] eqn:Htable; [contradiction|].
    cbn [frame_empty]. rewrite <- Htable.
    destruct (print_latest_prices_total table (List.length table)
                (unique (map p_pm table)) [])
      as (lines & Hrun & Hpms & Hlines).
    { intros pm Hin. now apply unique_from_fresh in Hin. }
    exists lines. split; [exact Hrun|]. split; [exact Hpms|].
    split; [rewrite Hpms; apply unique_from_NoDup|].
    split; [|exact Hlines].
    intros pm. rewrite Hpms. split.
    + intros Hin. now apply unique_from_fresh in Hin.
    + intros Hin. apply unique_from_complete; [exact Hin | intros []].
Qed.

Lemma display_summary_lists_each_asset_once_witness :
  exists lines,
    display_summary
      [rec3 (mkDatetime 2025 1 1 10 30 0 0) "benchmark_btc" (10 # 1);
       rec3 (mkDatetime 2025 1 1 10 30 0 0) "benchmark_eth" (5 # 1);
       rec3 (mkDatetime 2025 1 1 10 31 0 0) "benchmark_btc" (12 # 1)]
    = Summary 3 lines
    /\ map line_pm lines = ["benchmark_btc"; "benchmark_eth"]
    /\ map line_price lines = [(12 # 1)%Q; (5 # 1)%Q].
Proof.
  destruct (proj2 (display_summary_lists_each_asset_once
              [rec3 (mkDatetime 2025 1 1 10 30 0 0) "benchmark_btc" (10 # 1);
               rec3 (mkDatetime 2025 1 1 10 30 0 0) "benchmark_eth" (5 # 1);
               rec3 (mkDatetime 2025 1 1 10 31 0 0) "benchmark_btc" (12 # 1)])
            ltac:(discriminate))
    as (lines & Hrun & _).
  exists lines. split; [exact Hrun|].
  vm_compute in Hrun. injection Hrun as <-. split; reflexivity.
Defined.

(** ** Fetching, in general *)

Lemma length_snoc {A : Type} (l : list A) (x : A) :
  List.length (l ++ [x]) = S (List.length l).
Proof. rewrite length_app. simpl. lia. Qed.

(** X2. [add_price_record] never raises, and its return value tells
    whether a row was added: it is [True] exactly when the symbol is
    configured and the fetch worked, and then the table gains one record
    (canonical name, fetched price, the clock reading cut to the minute);
    otherwise the table and the clock are as before.  The store is never
    touched. *)
Theorem add_price_record_returns_whether_it_appended
    (env : Env) (symbol : string) (s : State) :
  exists ok s',
    add_price_record env symbol s = (Ok ok, s')
    /\ (ok = true <->
        configured symbol
        /\ is_failure (ticker_price env (List.length (api_calls s)) symbol) = false)
    /\ (ok = true ->
        exists price,
          ticker_price env (List.length (api_calls s)) symbol = Ok price
          /\ df s' = df s ++
               [mkPrice (replace (datetime_now env (clock_reads s)) 0 0)
                        (canonical symbol) price])
    /\ (ok = false -> df s' = df s /\ clock_reads s' = clock_reads s)
    /\ store s' = store s
    /\ db_calls s' = db_calls s.
Proof.
  pose proof (add_price_record_run env symbol s) as Hrun.
  unfold configured, dict_contains, canonical.
  destruct (dict_get COIN_MAPPINGS symbol) as [pm|].
  - destruct (ticker_price env (List.length (api_calls s)) symbol) as [price|e];
      rewrite Hrun; eexists _, _; (split; [reflexivity|]); simpl.
    + repeat split; try discriminate. intros _. exists price. now split.
    + split; [split; [discriminate | intros [_ H]; discriminate]|].
      repeat split. discriminate.
  - rewrite Hrun. eexists _, _. split; [reflexivity|]. simpl.
    split; [split; [discriminate | intros [H _]; discriminate]|].
    repeat split. discriminate.
Qed.

Lemma get_latest_price_snoc (table : list PriceRecord) (r : PriceRecord) (pm : string) :
  get_latest_price (table ++ [r]) pm
  = if String.eqb (p_pm r) pm then Some (p_balance r)
    else get_latest_price table pm.
Proof.
  unfold get_latest_price. rewrite filter_app. simpl.
  destruct (String.eqb (p_pm r) pm).
  - now rewrite frame_empty_snoc, iloc_last_snoc.
  - now rewrite app_nil_r.
Qed.

(** X3. Append then look up: after a successful [add_price_record] the
    latest price of the symbol's asset is the price just fetched, and the
    latest price of every other asset is what it was. *)
Theorem latest_price_after_add_price_record
    (env : Env) (symbol : string) (s : State) (price : Q) :
  configured symbol ->
  ticker_price env (List.length (api_calls s)) symbol = Ok price ->
  get_latest_price (df (snd (add_price_record env symbol s))) (canonical symbol)
  = Some price
  /\ (forall pm, pm <> canonical symbol ->
        get_latest_price (df (snd (add_price_record env symbol s))) pm
        = get_latest_price (df s) pm).
Proof.
  intros Hconf Hprice.
  pose proof (add_price_record_run env symbol s) as Hrun.
  rewrite (configured_dict_get symbol Hconf), Hprice in Hrun.
  rewrite Hrun. cbn [snd df set_df]. split.
  - rewrite get_latest_price_snoc. cbn [p_pm p_balance].
    now rewrite String.eqb_refl.
  - intros pm Hne. rewrite get_latest_price_snoc. cbn [p_pm].
    destruct (String.eqb_spec (canonical symbol) pm) as [Heq|_];
      [now subst pm | reflexivity].
Qed.

Lemma latest_price_after_add_price_record_witness :
  get_latest_price
    (df (snd (add_price_record always_quoting "ETHUSDT" state_before_nav)))
    (canonical "ETHUSDT") = Some (100 # 1)%Q
  /\ (forall pm, pm <> canonical "ETHUSDT" ->
        get_latest_price
          (df (snd (add_price_record always_quoting "ETHUSDT" state_before_nav))) pm
        = get_latest_price (df state_before_nav) pm).
Proof.
  apply (latest_price_after_add_price_record always_quoting "ETHUSDT"
           state_before_nav (100 # 1)%Q); reflexivity.
Defined.

Lemma add_prices_loop_run (env : Env) (symbols : list string) :
  forall (count : nat) (s : State),
  exists appended s',
    add_prices_loop env symbols count s = (Ok (count + List.length appended), s')
    /\ df s' = df s ++ appended
    /\ map (fun r => (p_pm r, p_balance r)) appended
       = quotes env (List.length (api_calls s)) symbols
    /\ Forall (fun r => exists k, clock_reads s <= k
                 /\ p_timestamp r = replace (datetime_now env k) 0 0) appended
    /\ List.length appended <= List.length symbols
    /\ store s' = store s
    /\ db_calls s' = db_calls s.
Proof.
  induction symbols as [|symbol rest IH]; intros count s.
  - exists [], s. simpl. rewrite app_nil_r, Nat.add_0_r. repeat split; auto.
  - pose proof (add_price_record_run env symbol s) as Hrun.
    cbn [add_prices_loop quotes]. unfold bind.
    destruct (dict_get COIN_MAPPINGS symbol) as [pm|].
    + destruct (ticker_price env (List.length (api_calls s)) symbol) as [price|e];
        rewrite Hrun.
      * match goal with |- context [add_prices_loop env rest ?c ?s1] =>
          destruct (IH c s1) as (a & s' & Hloop & Hdf & Hq & Hts & Hlen & Hst & Hdb)
        end.
        cbn [df store db_calls api_calls clock_reads set_df tick_clock add_api_call]
          in Hdf, Hq, Hts, Hst, Hdb.
        rewrite length_snoc in Hq.
        eexists (_ :: a), s'. rewrite Hloop.
        split; [f_equal; f_equal; simpl; lia|].
        rewrite Hdf, <- app_assoc. split; [reflexivity|].
        split; [simpl; now rewrite Hq|].
        split.
        { constructor.
          - exists (clock_reads s). split; [lia | reflexivity].
          - eapply Forall_impl; [|exact Hts].
            intros r (k & Hk & Hr). exists k. split; [lia | exact Hr]. }
        split; [simpl; lia|]. now split.
      * match goal with |- context [add_prices_loop env rest ?c ?s1] =>
          destruct (IH c s1) as (a & s' & Hloop & Hdf & Hq & Hts & Hlen & Hst & Hdb)
        end.
        cbn [df store db_calls api_calls clock_reads add_log add_api_call]
          in Hdf, Hq, Hts, Hst, Hdb.
        rewrite length_snoc in Hq.
        exists a, s'. rewrite Hloop.
        repeat split; auto. simpl. lia.
    + rewrite Hrun.
      match goal with |- context [add_prices_loop env rest ?c ?s1] =>
        destruct (IH c s1) as (a & s' & Hloop & Hdf & Hq & Hts & Hlen & Hst & Hdb)
      end.
      cbn [df store db_calls api_calls clock_reads add_log] in Hdf, Hq, Hts, Hst, Hdb.
      exists a, s'. rewrite Hloop.
      repeat split; auto. simpl. lia.
Qed.

(** X4. For any list of symbols and whatever the exchange answers,
    [add_multiple_prices] returns normally; the number it returns is the
    number of records it added; the added records are, in the order of
    the list, the canonical name and price of every configured symbol whose
    fetch worked; at most one record is added per symbol, each on a whole
    minute; earlier records stay and the store is not touched. *)
Theorem add_multiple_prices_counts_what_it_adds
    (env : Env) (arg : option (list string)) (s : State) :
  exists appended s',
    add_multiple_prices env arg s = (Ok (List.length appended), s')
    /\ df s' = df s ++ appended
    /\ map (fun r => (p_pm r, p_balance r)) appended
       = quotes env (List.length (api_calls s)) (symbols_of arg)
    /\ minute_aligned appended
    /\ List.length appended <= List.length (symbols_of arg)
    /\ store s' = store s
    /\ db_calls s' = db_calls s.
Proof.
  destruct (add_prices_loop_run env (symbols_of arg) 0 s)
    as (a & s' & Hloop & Hdf & Hq & Hts & Hlen & Hst & Hdb).
  exists a, s'. split; [exact Hloop|]. split; [exact Hdf|]. split; [exact Hq|].
  split.
  { eapply Forall_impl; [|exact Hts].
    intros r (k & _ & Hr). rewrite Hr. split; reflexivity. }
  split; [exact Hlen|]. now split.
Qed.

(** X5. Runs within one minute share a bucket: when every clock reading
    from the start of [add_multiple_prices] on falls in the minute of [t],
    every record it adds carries the same timestamp, [t] with seconds and
    microseconds zero. *)
Theorem same_minute_same_timestamp
    (env : Env) (arg : option (list string)) (s : State) (t : datetime) :
  (forall k, clock_reads s <= k -> same_minute (datetime_now env k) t) ->
  exists appended,
    df (snd (add_multiple_prices env arg s)) = df s ++ appended
    /\ Forall (fun r => p_timestamp r = replace t 0 0) appended.
Proof.
  intros Hminute.
  destruct (add_prices_loop_run env (symbols_of arg) 0 s)
    as (a & s' & Hloop & Hdf & _ & Hts & _).
  exists a. unfold add_multiple_prices. fold (symbols_of arg).
  rewrite Hloop. split; [exact Hdf|].
  eapply Forall_impl; [|exact Hts].
  intros r (k & Hk & Hr). rewrite Hr.
  destruct (Hminute k Hk) as (Hy & Hmo & Hd & Hh & Hmi).
  unfold replace. now rewrite Hy, Hmo, Hd, Hh, Hmi.
Qed.

Lemma same_minute_same_timestamp_witness :
  exists appended,
    df (snd (add_multiple_prices always_quoting None fresh_state))
    = df fresh_state ++ appended
    /\ Forall (fun r => p_timestamp r
                        = replace (mkDatetime 2025 1 2 3 4 7 0) 0 0) appended.
Proof.
  apply (same_minute_same_timestamp always_quoting None fresh_state
           (mkDatetime 2025 1 2 3 4 7 0)).
  intros k _. repeat split.
Defined.

(** ** Writes, in general *)



Lemma df_replace_table_replaced {R : Type} `{ToSql R} (env : Env)
    (table_name : string) (d : list R) (s : State) :
  d <> [] ->
  to_sql_raises env (List.length (db_calls s)) = None ->
  df_replace_table env table_name d s
  = (Ok tt,
     set_table table_name (map to_sql_row d)
       (add_db_call (ToSqlCall table_name Replace (map to_sql_row d)) s)).
Proof.
  intros Hne Hok. destruct d as [|x d]; [contradiction|].
  unfold df_replace_table. cbn [frame_empty].
  unfold bind, try_except, to_sql. now rewrite Hok.
Qed.

(** X7. Writing the same records twice, both writes working:
    [df_replace_table] leaves the table holding exactly the records, as
    after one call, whatever it held before; [df_to_table] leaves the
    earlier rows followed by the records twice.  Neither changes another
    table. *)
Theorem replace_is_idempotent_append_accumulates
    {R : Type} `{ToSql R} (env : Env) (table_name : string) (d : list R) (s : State) :
  d <> [] ->
  to_sql_raises env (List.length (db_calls s)) = None ->
  to_sql_raises env (S (List.length (db_calls s))) = None ->
  let once_r := snd (df_replace_table env table_name d s) in
  let twice_r := snd (df_replace_table env table_name d once_r) in
  let once_a := snd (df_to_table env table_name d s) in
  let twice_a := snd (df_to_table env table_name d once_a) in
  store once_r table_name = map to_sql_row d
  /\ store twice_r table_name = map to_sql_row d
  /\ store once_a table_name = store s table_name ++ map to_sql_row d
  /\ store twice_a table_name
     = store s table_name ++ map to_sql_row d ++ map to_sql_row d
  /\ (forall t, t <> table_name ->
        store twice_r t = store s t /\ store twice_a t = store s t).
Proof.
  intros Hne Hok1 Hok2 once_r twice_r once_a twice_a.
  subst twice_r twice_a. subst once_r once_a.
  rewrite (df_replace_table_replaced env table_name d s Hne Hok1).
  rewrite (df_to_table_appended env table_name d s Hne Hok1).
  cbn [snd].
  rewrite df_replace_table_replaced;
    [|exact Hne | cbn [db_calls set_table add_db_call]; now rewrite length_snoc].
  rewrite df_to_table_appended;
    [|exact Hne | cbn [db_calls set_table add_db_call]; now rewrite length_snoc].
  cbn [snd store set_table add_db_call]. rewrite !String.eqb_refl.
  repeat split; try reflexivity.
  - now rewrite <- app_assoc.
  - apply String.eqb_neq in H0. now rewrite H0.
  - apply String.eqb_neq in H0. now rewrite H0.
Qed.

Lemma replace_is_idempotent_append_accumulates_witness :
  let d := [price_x] in
  let once_r := snd (df_replace_table always_quoting "nav_table" d state_with_nav) in
  let twice_r := snd (df_replace_table always_quoting "nav_table" d once_r) in
  let once_a := snd (df_to_table always_quoting "nav_table" d state_with_nav) in
  let twice_a := snd (df_to_table always_quoting "nav_table" d once_a) in
  store once_r "nav_table" = map to_sql_row d
  /\ store twice_r "nav_table" = map to_sql_row d
  /\ store once_a "nav_table" = store state_with_nav "nav_table" ++ map to_sql_row d
  /\ store twice_a "nav_table"
     = store state_with_nav "nav_table" ++ map to_sql_row d ++ map to_sql_row d
  /\ (forall t, t <> "nav_table" ->
        store twice_r t = store state_with_nav t
        /\ store twice_a t = store state_with_nav t).
Proof.
  apply (replace_is_idempotent_append_accumulates always_quoting "nav_table"
           [price_x] state_with_nav).
  - discriminate.
  - reflexivity.
  - reflexivity.
Defined.

(** ** What the pipeline never does to the store *)

Lemma grew_only_same (tables : list string) (s s' : State) :
  store s' = store s -> db_calls s' = db_calls s -> grew_only tables s s'.
Proof.
  intros Hst Hdb. unfold grew_only. rewrite Hst, Hdb. split; [|split].
  - intros t. exists []. now rewrite app_nil_r.
  - reflexivity.
  - exists []. rewrite app_nil_r. split; [reflexivity | constructor].
Qed.

Lemma grew_only_trans (tables : list string) (s1 s2 s3 : State) :
  grew_only tables s1 s2 -> grew_only tables s2 s3 -> grew_only tables s1 s3.
Proof.
  intros (Ha1 & Hb1 & c1 & Hc1 & Hd1) (Ha2 & Hb2 & c2 & Hc2 & Hd2).
  split; [|split].
  - intros t. destruct (Ha1 t) as [e1 He1]. destruct (Ha2 t) as [e2 He2].
    exists (e1 ++ e2). now rewrite He2, He1, app_assoc.
  - intros t Ht. now rewrite (Hb2 t Ht), (Hb1 t Ht).
  - exists (c1 ++ c2). split; [now rewrite Hc2, Hc1, app_assoc|].
    apply Forall_app. now split.
Qed.

Lemma benign_call_weaken (tables tables' : list string) (c : db_call) :
  incl tables tables' -> benign_call tables c -> benign_call tables' c.
Proof.
  intros Hincl. destruct c as [q|t m r]; simpl; [auto|].
  intros [Hm Hin]. split; [exact Hm | now apply Hincl].
Qed.

Lemma grew_only_weaken (tables tables' : list string) (s s' : State) :
  incl tables tables' -> grew_only tables s s' -> grew_only tables' s s'.
Proof.
  intros Hincl (Ha & Hb & c & Hc & Hd). split; [exact Ha|]. split.
  - intros t Ht. apply Hb. intros Hin. apply Ht. now apply Hincl.
  - exists c. split; [exact Hc|].
    eapply Forall_impl; [|exact Hd]. intros x. now apply benign_call_weaken.
Qed.

Lemma append_only_ret {A : Type} (tables : list string) (a : A) :
  append_only tables (ret a).
Proof. intros s. now apply grew_only_same. Qed.

Lemma append_only_raise {A : Type} (tables : list string) (e : exn) :
  append_only tables (@raise A e).
Proof. intros s. now apply grew_only_same. Qed.

Lemma append_only_lift_result {A : Type} (tables : list string) (r : result A) :
  append_only tables (lift_result r).
Proof. intros s. now apply grew_only_same. Qed.

Lemma append_only_get_state (tables : list string) : append_only tables get_state.
Proof. intros s. now apply grew_only_same. Qed.

Lemma append_only_add_log (tables : list string) (line : string) :
  append_only tables (modify (add_log line)).
Proof. intros s. now apply grew_only_same. Qed.

Lemma append_only_getitem_column {R : Type} (tables : list string)
    (frame : DataFrame R) (col : string) :
  append_only tables (getitem_column frame col).
Proof.
  intros s. unfold getitem_column.
  destruct (existsb (String.eqb col) (columns frame)); now apply grew_only_same.
Qed.

Lemma append_only_bind {A B : Type} (tables : list string) (m : M A) (f : A -> M B) :
  append_only tables m -> (forall a, append_only tables (f a)) ->
  append_only tables (bind m f).
Proof.
  intros Hm Hf s. unfold bind. specialize (Hm s).
  destruct (m s) as [[a|e] s1]; simpl in *.
  - eapply grew_only_trans; [exact Hm | apply Hf].
  - exact Hm.
Qed.

Lemma append_only_try_except {A : Type} (tables : list string)
    (m : M A) (h : exn -> M A) :
  append_only tables m -> (forall e, append_only tables (h e)) ->
  append_only tables (try_except m h).
Proof.
  intros Hm Hh s. unfold try_except. specialize (Hm s).
  destruct (m s) as [[a|e] s1]; simpl in *.
  - exact Hm.
  - eapply grew_only_trans; [exact Hm | apply Hh].
Qed.

Lemma append_only_get_db_table (tables : list string) (env : Env) (query : string) :
  append_only tables (get_db_table env query).
Proof.
  intros s.
  destruct (get_db_table_never_raises env query s)
    as (f & s' & Hrun & Hst & _ & Hdb & _).
  rewrite Hrun. cbn [snd]. split; [|split].
  - intros t. exists []. now rewrite Hst, app_nil_r.
  - intros t _. now rewrite Hst.
  - exists [ReadSql query]. split; [exact Hdb|]. repeat constructor.
Qed.

Lemma append_only_to_sql_append {R : Type} `{ToSql R} (tables : list string)
    (env : Env) (d : list R) (table_name : string) :
  In table_name tables ->
  append_only tables (to_sql env d table_name Append).
Proof.
  intros Hin s. unfold to_sql.
  destruct (to_sql_raises env (List.length (db_calls s))); cbn [snd].
  - split; [|split].
    + intros t. exists []. now rewrite app_nil_r.
    + reflexivity.
    + eexists. split; [reflexivity|]. repeat constructor. exact Hin.
  - split; [|split].
    + intros t. cbn [store set_table add_db_call].
      destruct (String.eqb_spec t table_name) as [->|Hne].
      * eexists. reflexivity.
      * exists []. now rewrite app_nil_r.
    + intros t Ht. cbn [store set_table add_db_call].
      destruct (String.eqb_spec t table_name) as [->|Hne];
        [contradiction | reflexivity].
    + eexists. split; [reflexivity|]. repeat constructor. exact Hin.
Qed.

Lemma append_only_df_to_table {R : Type} `{ToSql R} (tables : list string)
    (env : Env) (table_name : string) (d : list R) :
  In table_name tables ->
  append_only tables (df_to_table env table_name d).
Proof.
  intros Hin. unfold df_to_table.
  destruct (frame_empty d); [apply append_only_ret|].
  apply append_only_bind; [|intros ?; apply append_only_ret].
  apply append_only_try_except; [now apply append_only_to_sql_append|].
  intros e. apply append_only_add_log.
Qed.

Lemma append_only_save_to_db (env : Env) :
  append_only ["balance_all_consolidated"] (save_to_db env).
Proof.
  unfold save_to_db.
  apply append_only_try_except; [|intros e; apply append_only_add_log].
  apply append_only_bind; [apply append_only_get_state|].
  intros s. apply append_only_df_to_table. now left.
Qed.

Lemma append_only_update_nav
    (env : Env) (sort_values : list ShareRecord -> list ShareRecord) :
  append_only ["nav_table"] (update_nav env sort_values).
Proof.
  unfold update_nav, update_nav_body.
  apply append_only_try_except; [|intros e; apply append_only_add_log].
  repeat first
    [ apply append_only_bind; [|intros ?]
    | apply append_only_get_db_table
    | apply append_only_getitem_column
    | apply append_only_get_state
    | apply append_only_lift_result
    | apply append_only_ret
    | apply append_only_df_to_table; now left ].
Qed.

Lemma append_only_add_multiple_prices (tables : list string)
    (env : Env) (arg : option (list string)) :
  append_only tables (add_multiple_prices env arg).
Proof.
  intros s.
  destruct (add_prices_loop_run env (symbols_of arg) 0 s)
    as (a & s' & Hloop & _ & _ & _ & _ & Hst & Hdb).
  unfold add_multiple_prices. fold (symbols_of arg). rewrite Hloop.
  now apply grew_only_same.
Qed.

Lemma never_raises_try_except {A : Type} (m : M A) (h : exn -> M A) :
  (forall e, never_raises (h e)) -> never_raises (try_except m h).
Proof.
  intros Hh s. unfold try_except.
  destruct (m s) as [[a|e] s1]; [now exists a | apply Hh].
Qed.

Lemma never_raises_logger_error (line : string) : never_raises (logger_error line).
Proof. intros s. now exists tt. Qed.

Lemma save_to_db_ok (env : Env) (s : State) : fst (save_to_db env s) = Ok tt.
Proof.
  destruct (never_raises_try_except
              (st <- get_state ;; df_to_table env "balance_all_consolidated" (df st))
              (fun e => logger_error "Error saving to DB")
              (fun e => never_raises_logger_error _) s) as [[] Hok].
  exact Hok.
Qed.

Lemma update_nav_ok
    (env : Env) (sort_values : list ShareRecord -> list ShareRecord) (s : State) :
  fst (update_nav env sort_values s) = Ok tt.
Proof.
  destruct (never_raises_try_except
              (update_nav_body env sort_values ;;; ret tt)
              (fun e => logger_error "Error udpaing nav_table")
              (fun e => never_raises_logger_error _) s) as [[] Hok].
  exact Hok.
Qed.

(** X8. Whatever the store answers, [save_to_db] and [update_nav] return
    normally, leave [self.df] as it is, and only ever add rows at the end
    of their own table ([balance_all_consolidated], [nav_table]): every
    table keeps its earlier rows as a prefix, every other table is
    unchanged, and the calls sent are reads and appends, never a
    replace. *)
Theorem persistence_steps_only_append
    (env : Env) (sort_values : list ShareRecord -> list ShareRecord) (s : State) :
  (fst (save_to_db env s) = Ok tt
   /\ df (snd (save_to_db env s)) = df s
   /\ grew_only ["balance_all_consolidated"] s (snd (save_to_db env s)))
  /\ (fst (update_nav env sort_values s) = Ok tt
      /\ df (snd (update_nav env sort_values s)) = df s
      /\ grew_only ["nav_table"] s (snd (update_nav env sort_values s))).
Proof.
  split; split.
  - apply save_to_db_ok.
  - split; [apply save_to_db_df | apply append_only_save_to_db].
  - apply update_nav_ok.
  - split; [apply preserves_df_update_nav | apply append_only_update_nav].
Qed.

(** ** The NAV step, case by case *)

Lemma getitem_column_missing {R : Type} (frame : DataFrame R) (col : string)
    (s : State) :
  ~ In col (columns frame) ->
  getitem_column frame col s = (Raise (KeyError col), s).
Proof.
  intros H. unfold getitem_column.
  destruct (existsb (String.eqb col) (columns frame)) eqn:Hc; [|reflexivity].
  apply existsb_eqb_in in Hc. contradiction.
Qed.

Lemma update_nav_of_body_raise
    (env : Env) (sort_values : list ShareRecord -> list ShareRecord)
    (s s1 : State) (e : exn) :
  update_nav_body env sort_values s = (Raise e, s1) ->
  update_nav env sort_values s = (Ok tt, add_log "Error udpaing nav_table" s1).
Proof.
  intros Hbody. unfold update_nav, try_except.
  erewrite bind_raise by exact Hbody. reflexivity.
Qed.

Lemma update_nav_of_body_ok
    (env : Env) (sort_values : list ShareRecord -> list ShareRecord)
    (s s1 : State) (out : list NavRecord) :
  update_nav_body env sort_values s = (Ok out, s1) ->
  update_nav env sort_values s = (Ok tt, s1).
Proof.
  intros Hbody. unfold update_nav, try_except.
  erewrite bind_ok by exact Hbody. reflexivity.
Qed.

Lemma df_to_table_failed {R : Type} `{ToSql R} (env : Env)
    (table_name : string) (d : list R) (s : State) (e : exn) :
  d <> [] ->
  to_sql_raises env (List.length (db_calls s)) = Some e ->
  df_to_table env table_name d s
  = (Ok tt,
     add_log ("Error encountered when updating " ++ table_name)
       (add_db_call (ToSqlCall table_name Append (map to_sql_row d)) s)).
Proof.
  intros Hne Hfail. destruct d as [|x d]; [contradiction|].
  unfold df_to_table. cbn [frame_empty].
  unfold bind, try_except, to_sql. now rewrite Hfail.
Qed.

(** The NAV rows of a state, given the shares frame that was read. *)
Lemma update_nav_written
    (env : Env) (sort_values : list ShareRecord -> list ShareRecord)
    (s : State) (frame : DataFrame ShareRecord) :
  read_sql env (List.length (db_calls s)) shares_query = Ok frame ->
  In "timestamp" (columns frame) ->
  In "pm" (columns frame) ->
  In "shares" (columns frame) ->
  df s <> [] ->
  to_sql_raises env (S (List.length (db_calls s))) = None ->
  update_nav env sort_values s
  = (Ok tt,
     set_table "nav_table"
       (store s "nav_table" ++
        map to_sql_row
          (map (nav_record_of (latest_shares_of sort_values (rows frame))) (df s)))
       (add_db_call
          (ToSqlCall "nav_table" Append
             (map to_sql_row
                (map (nav_record_of (latest_shares_of sort_values (rows frame)))
                     (df s))))
          (add_db_call (ReadSql shares_query) s))).
Proof.
  intros Hread Hts Hpm Hsh Hne Hok.
  eapply update_nav_of_body_ok.
  rewrite (update_nav_body_after_read env sort_values s frame Hread Hts Hpm Hsh).
  erewrite bind_ok; [reflexivity|].
  rewrite df_to_table_appended; [reflexivity | |].
  - destruct (df s); [contradiction | discriminate].
  - cbn [db_calls add_db_call]. now rewrite length_snoc.
Qed.

(** X9. When the shares read works but the frame lacks one of the columns
    [timestamp], [pm], [shares], or the price table has no row,
    [update_nav] returns normally and sends no write: the read is the only
    call the store receives and every table is as before. *)
Theorem update_nav_without_write
    (env : Env) (sort_values : list ShareRecord -> list ShareRecord)
    (s : State) (frame : DataFrame ShareRecord) :
  read_sql env (List.length (db_calls s)) shares_query = Ok frame ->
  ~ In "timestamp" (columns frame) \/ ~ In "pm" (columns frame)
  \/ ~ In "shares" (columns frame) \/ df s = [] ->
  exists s',
    update_nav env sort_values s = (Ok tt, s')
    /\ store s' = store s
    /\ db_calls s' = db_calls s ++ [ReadSql shares_query]
    /\ df s' = df s.
Proof.
  intros Hread Hcase.
  destruct (in_dec string_dec "timestamp" (columns frame)) as [Hts|Hts].
  2:{ eexists. split.
      - eapply update_nav_of_body_raise. unfold update_nav_body.
        erewrite bind_ok by (apply get_db_table_ok; exact Hread).
        erewrite bind_raise by (apply getitem_column_missing; exact Hts).
        reflexivity.
      - repeat split. }
  destruct (in_dec string_dec "pm" (columns frame)) as [Hpm|Hpm].
  2:{ eexists. split.
      - eapply update_nav_of_body_raise. unfold update_nav_body.
        erewrite bind_ok by (apply get_db_table_ok; exact Hread).
        erewrite bind_ok by (apply getitem_column_ok; exact Hts).
        erewrite bind_raise by (apply getitem_column_missing; exact Hpm).
        reflexivity.
      - repeat split. }
  destruct (in_dec string_dec "shares" (columns frame)) as [Hsh|Hsh].
  2:{ eexists. split.
      - eapply update_nav_of_body_raise. unfold update_nav_body.
        erewrite bind_ok by (apply get_db_table_ok; exact Hread).
        erewrite bind_ok by (apply getitem_column_ok; exact Hts).
        erewrite bind_ok by (apply getitem_column_ok; exact Hpm).
        erewrite bind_raise by (apply getitem_column_missing; exact Hsh).
        reflexivity.
      - repeat split. }
  destruct Hcase as [H|[H|[H|Hempty]]]; try contradiction.
  eexists. split.
  - eapply update_nav_of_body_ok.
    rewrite (update_nav_body_after_read env sort_values s frame Hread Hts Hpm Hsh).
    rewrite Hempty. reflexivity.
  - repeat split.
Qed.

Lemma update_nav_without_write_witness :
  exists s',
    update_nav shares_column_missing stable_sort_desc state_before_nav = (Ok tt, s')
    /\ store s' = store state_before_nav
    /\ db_calls s' = db_calls state_before_nav ++ [ReadSql shares_query]
    /\ df s' = df state_before_nav.
Proof.
  apply (update_nav_without_write shares_column_missing stable_sort_desc
           state_before_nav
           (mkFrame ["timestamp"; "pm"] [mkShare (Some 5%Z) "benchmark_btc" None])).
  - reflexivity.
  - right. right. left. simpl. intros [H|[H|[]]]; discriminate.
Defined.

(** X10. When the NAV write itself fails, [df_to_table] swallows the
    failure: [update_nav] returns normally, the write reached the store
    but no table changed, and the only line logged is the one
    [df_to_table] prints. *)
Theorem update_nav_failed_write
    (env : Env) (sort_values : list ShareRecord -> list ShareRecord)
    (s : State) (frame : DataFrame ShareRecord) (e : exn) :
  read_sql env (List.length (db_calls s)) shares_query = Ok frame ->
  In "timestamp" (columns frame) ->
  In "pm" (columns frame) ->
  In "shares" (columns frame) ->
  df s <> [] ->
  to_sql_raises env (S (List.length (db_calls s))) = Some e ->
  exists out s',
    update_nav env sort_values s = (Ok tt, s')
    /\ Forall2 (nav_row_of (latest_shares_of sort_values (rows frame))) (df s) out
    /\ store s' = store s
    /\ db_calls s' = db_calls s ++
         [ReadSql shares_query; ToSqlCall "nav_table" Append (map to_sql_row out)]
    /\ log s' = log s ++ ["Error encountered when updating nav_table"].
Proof.
  intros Hread Hts Hpm Hsh Hne Hfail.
  eexists (map (nav_record_of (latest_shares_of sort_values (rows frame))) (df s)), _.
  split.
  - eapply update_nav_of_body_ok.
    rewrite (update_nav_body_after_read env sort_values s frame Hread Hts Hpm Hsh).
    erewrite bind_ok; [reflexivity|].
    apply (df_to_table_failed env "nav_table" _ _ e).
    + destruct (df s); [contradiction | discriminate].
    + cbn [db_calls add_db_call]. rewrite length_snoc. exact Hfail.
  - split; [apply Forall2_map_r, nav_record_of_spec|].
    cbn [store db_calls log add_log add_db_call].
    rewrite <- app_assoc. repeat split.
Qed.

Lemma update_nav_failed_write_witness :
  exists out s',
    update_nav store_rejects_writes stable_sort_desc state_before_nav = (Ok tt, s')
    /\ Forall2 (nav_row_of (latest_shares_of stable_sort_desc [])) [price_x] out
    /\ store s' = store state_before_nav
    /\ db_calls s' = [] ++
         [ReadSql shares_query; ToSqlCall "nav_table" Append (map to_sql_row out)]
    /\ log s' = [] ++ ["Error encountered when updating nav_table"].
Proof.
  apply (update_nav_failed_write store_rejects_writes stable_sort_desc
           state_before_nav (mkFrame ["timestamp"; "pm"; "shares"] [])
           (DatabaseError "read-only transaction")).
  - reflexivity.
  - simpl. auto.
  - simpl. auto.
  - simpl. auto.
  - discriminate.
  - reflexivity.
Defined.

(** X11. A shares table that is read without error but has no rows is the
    case of no share data: with a sort that returns a permutation, every
    price row is written to [nav_table] with a [NaN] shares cell and
    [nav = 0], after the rows the table already held. *)
Theorem update_nav_empty_shares_zero_nav
    (env : Env) (sort_values : list ShareRecord -> list ShareRecord)
    (s : State) (frame : DataFrame ShareRecord) :
  read_sql env (List.length (db_calls s)) shares_query = Ok frame ->
  In "timestamp" (columns frame) ->
  In "pm" (columns frame) ->
  In "shares" (columns frame) ->
  rows frame = [] ->
  Permutation (sort_values []) [] ->
  df s <> [] ->
  to_sql_raises env (S (List.length (db_calls s))) = None ->
  store (snd (update_nav env sort_values s)) "nav_table"
  = store s "nav_table" ++
    map to_sql_row
      (map (fun p => mkNav (p_timestamp p) (p_pm p) (p_balance p) None 0) (df s)).
Proof.
  intros Hread Hts Hpm Hsh Hrows Hperm Hne Hok.
  rewrite (update_nav_written env sort_values s frame Hread Hts Hpm Hsh Hne Hok).
  cbn [snd store set_table]. rewrite String.eqb_refl.
  rewrite Hrows. unfold latest_shares_of.
  apply Permutation_sym, Permutation_nil in Hperm. rewrite Hperm.
  reflexivity.
Qed.

Lemma update_nav_empty_shares_zero_nav_witness :
  store (snd (update_nav always_quoting stable_sort_desc state_before_nav)) "nav_table"
  = store state_before_nav "nav_table" ++
    map to_sql_row
      (map (fun p => mkNav (p_timestamp p) (p_pm p) (p_balance p) None 0)
           (df state_before_nav)).
Proof.
  apply (update_nav_empty_shares_zero_nav always_quoting stable_sort_desc
           state_before_nav (mkFrame ["timestamp"; "pm"; "shares"] [])).
  - reflexivity.
  - simpl. auto.
  - simpl. auto.
  - simpl. auto.
  - reflexivity.
  - apply Permutation_refl.
  - discriminate.
  - reflexivity.
Defined.

(** ** The whole cycle *)

Lemma display_summary_no_type_error (table : list PriceRecord) :
  display_summary table = NoDataAvailable
  \/ exists lines, display_summary table = Summary (List.length table) lines.
Proof.
  unfold display_summary. destruct (frame_empty table); [now left|]. right.
  destruct (print_latest_prices_total table (List.length table)
              (unique (map p_pm table)) [])
    as (lines & Hrun & _).
  - intros pm Hin. now apply unique_from_fresh in Hin.
  - now exists lines.
Qed.

(** The state [main] ends in, step by step. *)
Lemma main_run
    (env : Env) (sort_values : list ShareRecord -> list ShareRecord) (world : State) :
  main env sort_values world
  = (MainReturned,
     snd (update_nav env sort_values
            (snd (save_to_db env
                    (snd (add_multiple_prices env None (set_df [] world))))))).
Proof.
  unfold main.
  destruct (add_prices_loop_run env (symbols_of None) 0 (set_df [] world))
    as (a & s1 & Hloop & _).
  unfold add_multiple_prices. fold (symbols_of None). rewrite Hloop. cbn [snd].
  destruct (display_summary_no_type_error (df s1)) as [Hd|[lines Hd]]; rewrite Hd.
  - pose proof (save_to_db_ok env s1) as Hs.
    destruct (save_to_db env s1) as [[[]|e] s2]; [|discriminate]. cbn [snd].
    pose proof (update_nav_ok env sort_values s2) as Hu.
    destruct (update_nav env sort_values s2) as [[[]|e] s3]; [|discriminate].
    reflexivity.
  - pose proof (save_to_db_ok env s1) as Hs.
    destruct (save_to_db env s1) as [[[]|e] s2]; [|discriminate]. cbn [snd].
    pose proof (update_nav_ok env sort_values s2) as Hu.
    destruct (update_nav env sort_values s2) as [[[]|e] s3]; [|discriminate].
    reflexivity.
Qed.

(** X12. Once the tracker is constructed, a cycle never ends in the
    re-raising [except] arm of [main], whatever the exchange and the store
    do.  It never removes or rewrites a stored row: each table keeps its
    earlier rows as a prefix, only [balance_all_consolidated] and
    [nav_table] can gain rows, and the store receives reads and appends
    to these two tables, never a replace.  The tracker's table at the end
    is what the fetch step collected. *)
Theorem main_always_returns_and_only_appends
    (env : Env) (sort_values : list ShareRecord -> list ShareRecord) (world : State) :
  exists s',
    main env sort_values world = (MainReturned, s')
    /\ grew_only ["balance_all_consolidated"; "nav_table"] world s'
    /\ df s' = df (snd (add_multiple_prices env None (set_df [] world)))
    /\ minute_aligned (df s').
Proof.
  eexists. split; [apply main_run|].
  set (s1 := snd (add_multiple_prices env None (set_df [] world))).
  set (s2 := snd (save_to_db env s1)).
  assert (Hdf : df (snd (update_nav env sort_values s2)) = df s1).
  { rewrite preserves_df_update_nav. subst s2. apply save_to_db_df. }
  split; [|split; [exact Hdf|]].
  - apply (grew_only_trans _ world s1).
    { apply (grew_only_trans _ world (set_df [] world)).
      - now apply grew_only_same.
      - apply append_only_add_multiple_prices. }
    apply (grew_only_trans _ s1 s2).
    + eapply grew_only_weaken; [|apply append_only_save_to_db].
      intros t [<-|[]]. now left.
    + eapply grew_only_weaken; [|apply append_only_update_nav].
      intros t [<-|[]]. right. now left.
  - rewrite Hdf. subst s1.
    destruct (add_prices_loop_appends env (symbols_of None) 0 (set_df [] world))
      as (a & Ha & Hal).
    unfold add_multiple_prices. fold (symbols_of None).
    rewrite Ha. exact Hal.
Qed.

(** X13. A failed write of the prices does not stop the NAV step, and the
    NAV rows come from the tracker's in-memory table, saved or not: when
    the fetch step collected at least one record, the shares read works
    with its three columns and the NAV write works, the cycle appends
    one NAV row per collected record to [nav_table], while
    [balance_all_consolidated] gains the collected records if the price
    write worked and nothing if it failed. *)
Theorem main_nav_runs_whatever_the_price_write_did
    (env : Env) (sort_values : list ShareRecord -> list ShareRecord)
    (world : State) (frame : DataFrame ShareRecord) :
  df (snd (add_multiple_prices env None (set_df [] world))) <> [] ->
  read_sql env (S (List.length (db_calls world))) shares_query = Ok frame ->
  In "timestamp" (columns frame) ->
  In "pm" (columns frame) ->
  In "shares" (columns frame) ->
  to_sql_raises env (S (S (List.length (db_calls world)))) = None ->
  exists out,
    Forall2 (nav_row_of (latest_shares_of sort_values (rows frame)))
      (df (snd (add_multiple_prices env None (set_df [] world)))) out
    /\ store (snd (main env sort_values world)) "nav_table"
       = store world "nav_table" ++ map to_sql_row out
    /\ store (snd (main env sort_values world)) "balance_all_consolidated"
       = store world "balance_all_consolidated" ++
         match to_sql_raises env (List.length (db_calls world)) with
         | None =>
             map to_sql_row (df (snd (add_multiple_prices env None (set_df [] world))))
         | Some _ => []
         end.
Proof.
  intros Hne Hread Hts Hpm Hsh Hok.
  rewrite main_run. cbn [snd].
  destruct (add_prices_loop_run env (symbols_of None) 0 (set_df [] world))
    as (a & s1 & Hloop & _ & _ & _ & _ & Hst1 & Hdb1).
  unfold add_multiple_prices in *. fold (symbols_of None) in *.
  rewrite Hloop in *. cbn [snd] in *.
  cbn [store db_calls set_df] in Hst1, Hdb1.
  exists (map (nav_record_of (latest_shares_of sort_values (rows frame))) (df s1)).
  split; [apply Forall2_map_r, nav_record_of_spec|].
  assert (Hsave : exists s2,
            save_to_db env s1 = (Ok tt, s2)
            /\ df s2 = df s1
            /\ List.length (db_calls s2) = S (List.length (db_calls world))
            /\ store s2 "nav_table" = store world "nav_table"
            /\ store s2 "balance_all_consolidated"
               = store world "balance_all_consolidated" ++
                 match to_sql_raises env (List.length (db_calls world)) with
                 | None => map to_sql_row (df s1)
                 | Some _ => []
                 end).
  { unfold save_to_db, try_except.
    erewrite bind_ok by reflexivity.
    destruct (to_sql_raises env (List.length (db_calls world))) as [e|] eqn:Hw.
    - rewrite (df_to_table_failed env _ _ _ e Hne); [|now rewrite Hdb1].
      eexists. split; [reflexivity|].
      cbn [df store db_calls add_log add_db_call].
      rewrite length_snoc, Hdb1, Hst1, app_nil_r. repeat split.
    - rewrite (df_to_table_appended env _ _ _ Hne); [|now rewrite Hdb1].
      eexists. split; [reflexivity|].
      cbn [df store db_calls set_table add_db_call].
      rewrite length_snoc, Hdb1, Hst1. repeat split. }
  destruct Hsave as (s2 & Hrun2 & Hdf2 & Hlen2 & Hnav2 & Hbal2).
  rewrite Hrun2. cbn [snd].
  rewrite (update_nav_written env sort_values s2 frame);
    try assumption; try (now rewrite Hlen2); try (now rewrite Hdf2).
  cbn [snd store set_table add_db_call].
  split.
  - rewrite String.eqb_refl, Hnav2, Hdf2. reflexivity.
  - rewrite Hbal2. reflexivity.
Qed.

Lemma main_nav_runs_whatever_the_price_write_did_witness :
  exists out,
    Forall2 (nav_row_of (latest_shares_of stable_sort_desc
                           [mkShare (Some 5%Z) "benchmark_btc" (Some (50 # 1)%Q)]))
      (df (snd (add_multiple_prices first_write_fails None (set_df [] fresh_state))))
      out
    /\ store (snd (main first_write_fails stable_sort_desc fresh_state)) "nav_table"
       = store fresh_state "nav_table" ++ map to_sql_row out
    /\ store (snd (main first_write_fails stable_sort_desc fresh_state))
         "balance_all_consolidated"
       = store fresh_state "balance_all_consolidated" ++ [].
Proof.
  apply (main_nav_runs_whatever_the_price_write_did first_write_fails
           stable_sort_desc fresh_state
           (mkFrame ["timestamp"; "pm"; "shares"]
              [mkShare (Some 5%Z) "benchmark_btc" (Some (50 # 1)%Q)])).
  - discriminate.
  - reflexivity.
  - simpl. auto.
  - simpl. auto.
  - simpl. auto.
  - reflexivity.
Defined.

(** ** More invariants of the fetch step *)

Lemma dict_get_in_values {V : Type} (d : list (string * V)) (k : string) (v : V) :
  dict_get d k = Some v -> In v (map snd d).
Proof.
  induction d as [|[k' v'] rest IH]; simpl; [discriminate|].
  destruct (String.eqb k k'); [intros [= ->]; now left | intros H; right; auto].
Qed.

Lemma quotes_canonical (env : Env) (symbols : list string) :
  forall k, Forall (fun q => In (fst q) (map snd COIN_MAPPINGS)) (quotes env k symbols).
Proof.
  induction symbols as [|symbol rest IH]; intros k; [constructor|].
  cbn [quotes]. destruct (dict_get COIN_MAPPINGS symbol) as [pm|] eqn:Hpm; [|apply IH].
  destruct (ticker_price env k symbol); [|apply IH].
  constructor; [|apply IH]. cbn [fst]. eapply dict_get_in_values. exact Hpm.
Qed.

Lemma add_prices_loop_configured (env : Env) (symbols : list string)
    (count : nat) (s : State) :
  holds_configured_assets (df s) ->
  holds_configured_assets (df (snd (add_prices_loop env symbols count s))).
Proof.
  intros Hold.
  destruct (add_prices_loop_run env symbols count s)
    as (a & s' & Hloop & Hdf & Hq & _).
  rewrite Hloop. cbn [snd]. rewrite Hdf. apply Forall_app. split; [exact Hold|].
  pose proof (quotes_canonical env symbols (List.length (api_calls s))) as Hc.
  rewrite <- Hq in Hc. rewrite Forall_map in Hc. exact Hc.
Qed.

(** X14. In every state a run can reach, each record of the price table
    names an asset of the configuration: its [pm] is one of the canonical
    names of [COIN_MAPPINGS], never a trading symbol or anything else. *)
Theorem price_table_holds_configured_assets
    (env : Env) (sort_values : list ShareRecord -> list ShareRecord) (s : State) :
  reachable env sort_values s -> holds_configured_assets (df s).
Proof.
  induction 1 as [s Hinit | s symbol _ IH | s symbols _ IH | s _ IH | s _ IH].
  - unfold holds_configured_assets. rewrite Hinit. constructor.
  - apply (add_prices_loop_configured env [symbol] 0 s) in IH.
    cbn [add_prices_loop] in IH. unfold bind in IH.
    destruct (add_price_record env symbol s) as [[ok|e] s1]; exact IH.
  - now apply add_prices_loop_configured.
  - now rewrite save_to_db_df.
  - now rewrite preserves_df_update_nav.
Qed.

Lemma price_table_holds_configured_assets_witness :
  holds_configured_assets
    (df (snd (update_nav second_call_fails stable_sort_desc
           (snd (save_to_db second_call_fails
              (snd (add_multiple_prices second_call_fails
                      (Some ["SOLUSDT"; "DOGEUSDT"; "BTCUSDT"]) fresh_state))))))).
Proof.
  apply (price_table_holds_configured_assets second_call_fails stable_sort_desc).
  apply reach_update_nav, reach_save_to_db, reach_add_multiple_prices, reach_init.
  reflexivity.
Defined.

Lemma add_prices_loop_calls (env : Env) (symbols : list string) :
  forall (count : nat) (s : State),
    let s' := snd (add_prices_loop env symbols count s) in
    api_calls s' = api_calls s ++ filter (dict_contains COIN_MAPPINGS) symbols
    /\ clock_reads s' + List.length (df s) = clock_reads s + List.length (df s').
Proof.
  induction symbols as [|symbol rest IH]; intros count s; cbn zeta.
  - simpl. rewrite app_nil_r. split; [reflexivity | lia].
  - pose proof (add_price_record_run env symbol s) as Hrun.
    cbn [add_prices_loop filter]. unfold bind, dict_contains at 1.
    destruct (dict_get COIN_MAPPINGS symbol) as [pm|].
    + destruct (ticker_price env (List.length (api_calls s)) symbol) as [price|e];
        rewrite Hrun;
        match goal with |- context [add_prices_loop env rest ?c ?s1] =>
          destruct (IH c s1) as [Hapi Hclock]
        end;
        cbn [api_calls clock_reads df set_df tick_clock add_api_call add_log]
          in Hapi, Hclock;
        rewrite Hapi, <- app_assoc; (split; [reflexivity|]).
      * rewrite length_snoc in Hclock. lia.
      * exact Hclock.
    + rewrite Hrun.
      match goal with |- context [add_prices_loop env rest ?c ?s1] =>
        destruct (IH c s1) as [Hapi Hclock]
      end.
      cbn [api_calls clock_reads df add_log] in Hapi, Hclock.
      split; [exact Hapi | exact Hclock].
Qed.

(** X15. No retry and no stray call: [add_multiple_prices] asks the
    exchange exactly once for each configured symbol of the list, in the
    order of the list, and never for a symbol outside the configuration,
    whatever the answers are; it reads the clock once per record it adds. *)
Theorem each_configured_symbol_is_requested_once
    (env : Env) (arg : option (list string)) (s : State) :
  api_calls (snd (add_multiple_prices env arg s))
  = api_calls s ++ filter (dict_contains COIN_MAPPINGS) (symbols_of arg)
  /\ clock_reads (snd (add_multiple_prices env arg s)) + List.length (df s)
     = clock_reads s + List.length (df (snd (add_multiple_prices env arg s))).
Proof.
  exact (add_prices_loop_calls env (symbols_of arg) 0 s).
Qed.

(** ** More on the latest-shares projection *)

(** X16. With a sort that returns a permutation of the shares rows, the
    projection of line 212 invents nothing and repeats no asset: each of
    its rows is a row of the shares table, no two of its rows have the
    same asset, and its assets are exactly the assets of the table. *)
Theorem latest_shares_one_row_per_asset
    (sort_values : list ShareRecord -> list ShareRecord) (shares : list ShareRecord) :
  Permutation (sort_values shares) shares ->
  NoDup (map s_pm (latest_shares_of sort_values shares))
  /\ (forall r, In r (latest_shares_of sort_values shares) -> In r shares)
  /\ (forall asset, In asset (map s_pm (latest_shares_of sort_values shares))
                    <-> In asset (map s_pm shares)).
Proof.
  intros Hperm. split; [apply latest_shares_of_NoDup|].
  assert (Hincl : forall r, In r (latest_shares_of sort_values shares) -> In r shares).
  { intros r Hin. apply (Permutation_in _ Hperm).
    eapply drop_duplicates_from_incl. exact Hin. }
  split; [exact Hincl|].
  intros asset. split.
  - intros Hin. apply in_map_iff in Hin. destruct Hin as (r & Hpm & Hin).
    apply in_map_iff. exists r. split; [exact Hpm | now apply Hincl].
  - intros Hin. apply in_map_iff in Hin. destruct Hin as (r & Hpm & Hin).
    apply (Permutation_in _ (Permutation_sym Hperm)) in Hin.
    pose proof (drop_duplicates_from_first asset (sort_values shares) []
                  (fun H => H)) as Hfirst.
    destruct (find (of_asset asset) (sort_values shares)) as [r1|] eqn:Hfind.
    + assert (Hr1 : In r1 (filter (of_asset asset)
                             (drop_duplicates_from [] (sort_values shares)))).
      { rewrite Hfirst. now left. }
      apply filter_In in Hr1. destruct Hr1 as [Hr1 Hb].
      apply String.eqb_eq in Hb. apply in_map_iff. exists r1. now split.
    + exfalso. pose proof (find_none _ _ Hfind r Hin) as Hnone.
      unfold of_asset in Hnone. rewrite Hpm, String.eqb_refl in Hnone.
      discriminate.
Qed.

Lemma latest_shares_one_row_per_asset_witness :
  NoDup (map s_pm (latest_shares_of stable_sort_desc shares_x))
  /\ (forall r, In r (latest_shares_of stable_sort_desc shares_x) -> In r shares_x)
  /\ (forall asset, In asset (map s_pm (latest_shares_of stable_sort_desc shares_x))
                    <-> In asset (map s_pm shares_x)).
Proof.
  apply (latest_shares_one_row_per_asset stable_sort_desc shares_x).
  apply perm_swap.
Defined.
